(** * dnd.js: the drag source / drop target wrapper over HTML5 drag and drop

    A shallow embedding of the module that holds the [current] registry
    (createSource, createTarget and their event handlers) together with the
    parts of its sibling copy src/js/dnd.js that differ from it (its
    createSource with [checkOptions], its source handlers, its
    [setTargetProperties]).

    Conventions of the embedding.
    - JavaScript values that reach the effect encoder are the inductive
      [value]; numbers are integer valued (below 10^21 in absolute value,
      where JavaScript prints them in plain decimal); an object other than an
      array is a plain object or an element, without methods of strings.
    - Strings are sequences of bytes; the operations on characters are those
      of JavaScript on ASCII strings ([ascii_only]).
    - The file runs under ['use strict'] (first statement of the module), so an
      assignment to a property of a primitive string raises a TypeError
      (except for the accessor [__proto__], whose setter ignores it).
    - Statements that mutate shared state run in the monad [M S], a state
      monad whose computations may raise: the state reached when an exception
      is raised is kept, as in JavaScript.
    - Host callbacks (onStart, onEnter, ...) are opaque functions of the host
      page.  A call is recorded in the log of the world together with what
      the callee can observe at that moment (the registry and the transfer
      object of the event); its outcome is given by the section variable
      [host].  Callbacks do not modify their arguments.
    - The transfer object, the event and the elements are the platform's; they
      are modelled as plain records with the operations the code uses. *)

From Stdlib Require Import ZArith String Ascii List DecimalString Lia.
From stdpp Require Import base strings gmap list.

Set Warnings "-register-all".
Open Scope string_scope.
Open Scope list_scope.

(** ** JavaScript values and exceptions *)

(** Numbers are integers below 10^21 in absolute value; [VObj] is a plain
    object or an element: truthy, of typeof "object", without the methods of
    strings. *)

Inductive value : Type :=
| VUndefined
| VNull
| VBool (b : bool)
| VNum (n : Z)
| VStr (s : string)
| VArr (items : list value)
| VObj (handle : nat).

Inductive exn : Type :=
| Error (msg : string)      (* new Error(msg) *)
| TypeError                 (* raised by the language itself *)
| Thrown (v : value)        (* raised by a host callback *)
| ReferenceError (name : string). (* a name that is not defined *)

Inductive result (A : Type) : Type :=
| Ok (a : A)
| Err (e : exn).
Arguments Ok {A} a.
Arguments Err {A} e.

(** The error the specification calls InvalidConfiguration. *)
Definition InvalidConfiguration : exn := Error "cannot create effect string".

(** ToBoolean. *)
Definition truthy (v : value) : bool :=
  match v with
  | VUndefined | VNull => false
  | VBool b => b
  | VNum n => negb (n =? 0)%Z
  | VStr s => negb (String.eqb s "")
  | VArr _ | VObj _ => true
  end.

Definition typeof (v : value) : string :=
  match v with
  | VUndefined => "undefined"
  | VBool _ => "boolean"
  | VNum _ => "number"
  | VStr _ => "string"
  | VNull | VArr _ | VObj _ => "object"
  end.

Fixpoint join (sep : string) (l : list string) : string :=
  match l with
  | [] => ""
  | [x] => x
  | x :: r => (x ++ sep ++ join sep r)%string
  end.

(** ToString, as the operator [+] applies it to a non-string operand. *)
Fixpoint toString (v : value) : string :=
  match v with
  | VUndefined => "undefined"
  | VNull => "null"
  | VBool true => "true"
  | VBool false => "false"
  | VNum n => NilZero.string_of_int (Z.to_int n)
  | VStr s => s
  | VArr items =>
      join "," (map (fun x => match x with
                              | VUndefined | VNull => ""
                              | _ => toString x
                              end) items)
  | VObj _ => "[object Object]"
  end.

(** ** Strings: charAt(0).toUpperCase() + slice(1), and Array.prototype.sort *)

(** The strings on which the model of the character operations is exact:
    every character is an ASCII character. *)
Definition ascii_only (s : string) : bool :=
  forallb (fun c => (nat_of_ascii c <? 128)%nat) (list_ascii_of_string s).

(** toUpperCase on one ASCII character; a byte outside a-z is kept. *)
Definition toUpperCase (c : ascii) : ascii :=
  let n := nat_of_ascii c in
  if (97 <=? n)%nat && (n <=? 122)%nat then ascii_of_nat (n - 32) else c.

(** [second.charAt(0).toUpperCase() + second.slice(1)] *)
Definition capitalize (s : string) : string :=
  match s with
  | EmptyString => EmptyString
  | String c rest => String (toUpperCase c) rest
  end.

Fixpoint insert_sorted (x : string) (l : list string) : list string :=
  match l with
  | [] => [x]
  | y :: r => if String.leb x y then x :: y :: r else y :: insert_sorted x r
  end.

(** [effects.sort()] with the default comparison (code unit order). *)
Definition sort (l : list string) : list string :=
  fold_right insert_sorted [] l.

(** ** The effect encoder (createEffectString, camelCase) *)

(** function camelCase(first, second): the operand [second.charAt(0)] is
    evaluated before the concatenation, so a [second] that is not a string
    (none of the other values has a charAt) raises a TypeError when [first]
    is truthy. *)
Definition camelCase (first second : value) : result value :=
  if negb (truthy first) then Ok second
  else match second with
       | VStr s => Ok (VStr (toString first ++ capitalize s)%string)
       | _ => Err TypeError
       end.

(** function createEffectString(effects).  After the first conditional the
    local [effects] is an array of strings; the switch is on its length.  In
    the default case the argument [camelCase(effects)] of reduce is evaluated
    first, with [second] undefined. *)
Definition createEffectString (effects : value) : result string :=
  let switch (effects : list string) : result string :=
    match effects with
    | [] => Ok "none"
    | [e0] => Ok e0
    | [_; _; _] => Ok "all"
    | _ =>
        let effects := sort effects in
        match camelCase (VArr (map VStr effects)) VUndefined with
        | Err e => Err e
        | Ok _ => Err TypeError  (* reduce: the callback is not a function *)
        end
    end in
  if negb (truthy effects) then switch []
  else if String.eqb (typeof effects) "string" then
    match effects with
    | VStr s => switch [s]
    | _ => Err TypeError (* not reached: typeof is "string" only for VStr *)
    end
  else Err InvalidConfiguration.

(** *** The normalization rule of the specification (section 4.1) *)

Definition effect_names : list string := ["move"; "copy"; "link"].

Definition is_effect_name (s : string) : bool :=
  existsb (String.eqb s) effect_names.

(** Inputs the specification calls valid: absent, one effect name, or a
    collection of effect names. *)
Definition valid_input (v : value) : bool :=
  match v with
  | VUndefined => true
  | VStr s => is_effect_name s
  | VArr items =>
      forallb (fun x => match x with VStr s => is_effect_name s | _ => false end) items
  | _ => false
  end.

(** The normalized collection of a valid input. *)
Definition normalized (v : value) : list string :=
  match v with
  | VStr s => [s]
  | VArr items =>
      flat_map (fun x => match x with VStr s => [s] | _ => [] end) items
  | _ => []
  end.

(** "the first element is emitted verbatim; each subsequent element is
    appended with its first character upper-cased" *)
Definition camel_fold (l : list string) : string :=
  match l with
  | [] => ""
  | x :: r => fold_left (fun acc s => (acc ++ capitalize s)%string) r x
  end.

(** Specification rule: 0 elements, 1 element, the full set of 3 distinct
    effects, otherwise sort ascending and fold. *)
Definition encode_rule (l : list string) : string :=
  match l with
  | [] => "none"
  | [e] => e
  | _ =>
      if decide (sort l = ["copy"; "link"; "move"]) then "all"
      else camel_fold (sort l)
  end.


(** ** A state monad with exceptions *)

Definition M (S A : Type) : Type := S -> S * result A.

Definition ret {S A} (a : A) : M S A := fun st => (st, Ok a).

Definition throw {S A} (e : exn) : M S A := fun st => (st, Err e).

Definition bind {S A B} (c : M S A) (k : A -> M S B) : M S B :=
  fun st =>
    match c st with
    | (st', Ok a) => k a st'
    | (st', Err e) => (st', Err e)
    end.

Definition get {S} : M S S := fun st => (st, Ok st).

Definition modify {S} (f : S -> S) : M S unit := fun st => (f st, Ok tt).

(** A pure computation that may raise, run inside [M]. *)
Definition lift {S A} (r : result A) : M S A := fun st => (st, r).

Declare Scope js_scope.
Delimit Scope js_scope with js.
Notation "'let*' x ':=' c 'in' k" := (bind c (fun x => k))
  (at level 10, x name, c at level 100, k at level 200) : js_scope.
Notation "c1 ;> c2" := (bind c1 (fun _ => c2))
  (at level 100, c2 at level 200, right associativity) : js_scope.
Open Scope js_scope.

(** [dom.forEach(items, f)] and [Array.prototype.forEach]: apply [f] to each
    item in order; an exception stops the traversal. *)
Fixpoint forEach {S A} (items : list A) (f : A -> M S unit) : M S unit :=
  match items with
  | [] => ret tt
  | x :: rest => f x ;> forEach rest f
  end.

(** ** Platform objects: elements, the transfer object, events *)

Definition Element := nat.

(** A host function, identified by its reference. *)
Definition Callback := nat.

(** The element used as drag image, with its optional [x] and [y]. *)
Record View : Type := {
  view_element : Element;
  x : option Z;
  y : option Z
}.

(** [(v || 0)] for an optional number. *)
Definition or_zero (v : option Z) : Z :=
  match v with
  | Some n => if (n =? 0)%Z then 0%Z else n
  | None => 0%Z
  end.

(** evt.dataTransfer: the two effect fields, the drag image and the data
    store, in the order in which formats were first set. *)
Record DataTransfer : Type := {
  effectAllowed : string;
  dropEffect : string;
  dragImage : option (Element * Z * Z);
  store : list (string * string)
}.

Fixpoint store_set (format data : string) (st : list (string * string))
  : list (string * string) :=
  match st with
  | [] => [(format, data)]
  | (f, d) :: rest =>
      if String.eqb f format then (f, data) :: rest
      else (f, d) :: store_set format data rest
  end.

Definition setData (format data : string) (tr : DataTransfer) : DataTransfer :=
  {| effectAllowed := effectAllowed tr; dropEffect := dropEffect tr;
     dragImage := dragImage tr; store := store_set format data (store tr) |}.

Definition setDragImage (img : Element) (ox oy : Z) (tr : DataTransfer) : DataTransfer :=
  {| effectAllowed := effectAllowed tr; dropEffect := dropEffect tr;
     dragImage := Some (img, ox, oy); store := store tr |}.

Definition set_effectAllowed (e : string) (tr : DataTransfer) : DataTransfer :=
  {| effectAllowed := e; dropEffect := dropEffect tr;
     dragImage := dragImage tr; store := store tr |}.

Definition set_dropEffect (e : string) (tr : DataTransfer) : DataTransfer :=
  {| effectAllowed := effectAllowed tr; dropEffect := e;
     dragImage := dragImage tr; store := store tr |}.

(** tr.types *)
Definition types (tr : DataTransfer) : list string := map fst (store tr).

(** tr.getData(format): the empty string when the format is absent. *)
Fixpoint store_get (format : string) (st : list (string * string)) : string :=
  match st with
  | [] => ""
  | (f, d) :: rest => if String.eqb f format then d else store_get format rest
  end.

Definition getData (format : string) (tr : DataTransfer) : string :=
  store_get format (store tr).

Record Event : Type := {
  target : Element;
  dataTransfer : DataTransfer;
  defaultPrevented : bool
}.

(** An event as the platform first delivers it. *)
Definition fresh_event (e : Element) (tr : DataTransfer) : Event :=
  {| target := e; dataTransfer := tr; defaultPrevented := false |}.

(** ** Descriptors *)

(** An element of [options.data]: a string, or a pair {type, value}. *)
Inductive DataItem : Type :=
| DString (s : string)
| DPair (type value : string).

Module DragSource.
Record t : Type := {
  sources : list Element;
  effects : string;
  data : list DataItem;
  view : option View;
  onStart : option Callback;
  onCancel : option Callback;
  onDrop : option Callback
}.
End DragSource.

Module DragTarget.
Record t : Type := {
  targets : list Element;
  effect : string;
  accepts : value;
  onEnter : option Callback;
  onLeave : option Callback;
  onDrop : option Callback
}.
End DragTarget.

(** The first argument of createSource and createTarget. *)
Inductive ElementArg : Type :=
| OneElement (e : Element)
| ManyElements (l : list Element).

(** [options.data] *)
Inductive DataArg : Type :=
| DataUndefined
| DataOne (d : DataItem)
| DataMany (l : list DataItem).

Module SourceConfig.
Record t : Type := {
  data : DataArg;
  effects : value;
  view : option View;
  onStart : option Callback;
  onCancel : option Callback;
  onDrop : option Callback
}.
End SourceConfig.

Module TargetConfig.
Record t : Type := {
  effect : string;
  accepts : value;
  onEnter : option Callback;
  onLeave : option Callback;
  onDrop : option Callback
}.
End TargetConfig.

(** ** The registry [current], the log of callback calls, the world *)

Record Registry : Type := {
  source : option DragSource.t;
  element : option Element
}.

(** The value of the variable [current] when the module is loaded. *)
Definition idle : Registry := {| source := None; element := None |}.

(** The [data] of a drop record: a bare string or an object used as a map. *)
Inductive Payload : Type :=
| PString (s : string)
| PObject (m : gmap string string).

Module DropRecord.
Record t : Type := {
  fromElement : option Element;
  toElement : Element;
  data : Payload
}.
End DropRecord.

Inductive Arg : Type :=
| AElement (e : Element)
| ARecord (r : DropRecord.t).

(** The place of a call in the source text. *)
Inductive Site : Type :=
| SourceOnStart | SourceOnCancel | SourceOnDrop
| TargetOnEnter | TargetOnLeave | TargetOnDrop.

(** One call of a host callback, with what the callee can observe. *)
Record Call : Type := {
  site : Site;
  callee : Callback;
  arg : Arg;
  seen_current : Registry;
  seen_transfer : DataTransfer
}.

Inductive Outcome : Type :=
| Returns (v : value)
| Throws (v : value).

(** The closures passed to addEventListener. *)
Inductive Handler : Type :=
| SourceDragStart (ds : DragSource.t)
| SourceDragEnd (ds : DragSource.t)
| TargetDragEnter (dt : DragTarget.t)
| TargetDragLeave (dt : DragTarget.t)
| TargetDragOver (dt : DragTarget.t)
| TargetDrop (dt : DragTarget.t).

Record World : Type := {
  current : Registry;
  attributes : gmap (Element * string) string;
  listeners : list (Element * string * Handler);
  log : list Call;
  console : list string
}.

Definition initial : World :=
  {| current := idle; attributes := ∅; listeners := []; log := []; console := [] |}.

Definition with_current (r : Registry) (w : World) : World :=
  {| current := r; attributes := attributes w; listeners := listeners w;
     log := log w; console := console w |}.

Definition with_log (l : list Call) (w : World) : World :=
  {| current := current w; attributes := attributes w; listeners := listeners w;
     log := l; console := console w |}.

(** The state a handler runs in: the world and the event it was given. *)
Record HState : Type := {
  world : World;
  event : Event
}.

Definition on_world (f : World -> World) (st : HState) : HState :=
  {| world := f (world st); event := event st |}.

Definition on_transfer (f : DataTransfer -> DataTransfer) (st : HState) : HState :=
  {| world := world st;
     event := {| target := target (event st);
                 dataTransfer := f (dataTransfer (event st));
                 defaultPrevented := defaultPrevented (event st) |} |}.

(** ** createSource and createTarget *)

(** checkOptions(options): this module calls checkOptions and defines it
    nowhere, so the call raises a ReferenceError. *)
Definition checkOptions (options : SourceConfig.t) : M World unit :=
  throw (ReferenceError "checkOptions").

(** function createDataArray(data) *)
Definition createDataArray (data : DataArg) : list DataItem :=
  match data with
  | DataUndefined => []
  | DataMany l => l
  | DataOne d => [d]
  end.

(** [(src instanceof Array ? src : [src])] *)
Definition as_array (src : ElementArg) : list Element :=
  match src with
  | ManyElements l => l
  | OneElement e => [e]
  end.

Definition setAttribute (e : Element) (name v : string) : M World unit :=
  modify (fun w =>
    {| current := current w; attributes := <[(e, name) := v]> (attributes w);
       listeners := listeners w; log := log w; console := console w |}).

Definition addEventListener (e : Element) (type : string) (h : Handler) : M World unit :=
  modify (fun w =>
    {| current := current w; attributes := attributes w;
       listeners := listeners w ++ [(e, type, h)]; log := log w;
       console := console w |}).

(** function makeDraggable(ds) *)
Definition makeDraggable (ds : DragSource.t) : M World unit :=
  forEach (DragSource.sources ds) (fun src =>
    setAttribute src "draggable" "true").

(** function setupSourceEvents(ds) *)
Definition setupSourceEvents (ds : DragSource.t) : M World unit :=
  forEach (DragSource.sources ds) (fun src =>
    addEventListener src "dragstart" (SourceDragStart ds) ;>
    addEventListener src "dragend" (SourceDragEnd ds)).

(** exports.createSource = function(src, options): the fields of the object
    literal are evaluated in order, then the two set-up functions run. *)
Definition createSource (src : ElementArg) (options : SourceConfig.t)
  : M World DragSource.t :=
  checkOptions options ;>
  let sources := as_array src in
  let* effects := lift (createEffectString (SourceConfig.effects options)) in
  let that :=
    {| DragSource.sources := sources;
       DragSource.effects := effects;
       DragSource.data := createDataArray (SourceConfig.data options);
       DragSource.view := SourceConfig.view options;
       DragSource.onStart := SourceConfig.onStart options;
       DragSource.onCancel := SourceConfig.onCancel options;
       DragSource.onDrop := SourceConfig.onDrop options |} in
  makeDraggable that ;>
  setupSourceEvents that ;>
  ret that.

(** function setupTargetEvents(dt) *)
Definition setupTargetEvents (dt : DragTarget.t) : M World unit :=
  forEach (DragTarget.targets dt) (fun target =>
    addEventListener target "dragenter" (TargetDragEnter dt) ;>
    addEventListener target "dragleave" (TargetDragLeave dt) ;>
    addEventListener target "dragover" (TargetDragOver dt) ;>
    addEventListener target "drop" (TargetDrop dt)).

(** exports.createTarget = function(elmts, options) *)
Definition createTarget (elmts : ElementArg) (options : TargetConfig.t)
  : M World DragTarget.t :=
  let that :=
    {| DragTarget.targets := as_array elmts;
       DragTarget.effect := TargetConfig.effect options;
       DragTarget.accepts := TargetConfig.accepts options;
       DragTarget.onEnter := TargetConfig.onEnter options;
       DragTarget.onLeave := TargetConfig.onLeave options;
       DragTarget.onDrop := TargetConfig.onDrop options |} in
  setupTargetEvents that ;>
  ret that.

(** ** Event handlers *)

(** [payload[type] = v] in strict mode, with [v] a string.  The name
    [__proto__] is an accessor inherited from Object.prototype: its setter
    ignores a receiver that is not an object and a value that is not an
    object, so nothing is stored and nothing is raised.  For any other name,
    an object gets the property and a primitive string raises: a property of
    a primitive cannot be created. *)
Definition payload_set (payload : Payload) (type v : string) : result Payload :=
  if String.eqb type "__proto__" then Ok payload
  else match payload with
       | PObject m => Ok (PObject (<[type := v]> m))
       | PString _ => Err TypeError
       end.

(** The loop [forEach.call(tr.types, function(type) { payload[type] = ... })]
    over the variable [payload]. *)
Fixpoint fill_payload (tr : DataTransfer) (payload : Payload) (ts : list string)
  : result Payload :=
  match ts with
  | [] => Ok payload
  | type :: rest =>
      match payload_set payload type (getData type tr) with
      | Ok payload' => fill_payload tr payload' rest
      | Err e => Err e
      end
  end.

Section Handlers.

(** The host page: the outcome of a call, given the calls made before it. *)
Variable host : list Call -> Call -> Outcome.

Definition get_current : M HState Registry :=
  fun st => (st, Ok (current (world st))).

Definition get_event : M HState Event :=
  fun st => (st, Ok (event st)).

(** current.source = v *)
Definition set_source (v : option DragSource.t) : M HState unit :=
  modify (on_world (fun w =>
    with_current {| source := v; element := element (current w) |} w)).

(** current.element = v *)
Definition set_element (v : option Element) : M HState unit :=
  modify (on_world (fun w =>
    with_current {| source := source (current w); element := v |} w)).

(** evt.preventDefault() *)
Definition preventDefault : M HState unit :=
  modify (fun st =>
    {| world := world st;
       event := {| target := target (event st);
                   dataTransfer := dataTransfer (event st);
                   defaultPrevented := true |} |}).

(** console.log(msg) *)
Definition console_log (msg : string) : M HState unit :=
  modify (on_world (fun w =>
    {| current := current w; attributes := attributes w;
       listeners := listeners w; log := log w;
       console := console w ++ [msg] |})).

(** A call [f(a)] of a host callback at the place [s]. *)
Definition call (s : Site) (f : Callback) (a : Arg) : M HState value :=
  fun st =>
    let c := {| site := s; callee := f; arg := a;
                seen_current := current (world st);
                seen_transfer := dataTransfer (event st) |} in
    let st' := on_world (with_log (log (world st) ++ [c])) st in
    match host (log (world st)) c with
    | Returns v => (st', Ok v)
    | Throws v => (st', Err (Thrown v))
    end.

(** function setSourceProperties(ds, transfer), with [transfer] the
    transfer object of the event *)
Definition setSourceProperties (ds : DragSource.t) : M HState unit :=
  modify (on_transfer (set_effectAllowed (DragSource.effects ds))) ;>
  match DragSource.view ds with
  | Some v =>
      modify (on_transfer
        (setDragImage (view_element v) (or_zero (x v)) (or_zero (y v))))
  | None => ret tt
  end ;>
  forEach (DragSource.data ds) (fun d =>
    match d with
    | DString s => modify (on_transfer (setData "text" s))
    | DPair type v => modify (on_transfer (setData type v))
    end).

(** src.addEventListener('dragstart', function(evt) { ... }) *)
Definition dragstart (ds : DragSource.t) : M HState unit :=
  let* evt := get_event in
  set_source (Some ds) ;>
  set_element (Some (target evt)) ;>
  setSourceProperties ds ;>
  match DragSource.onStart ds with
  | Some f => call SourceOnStart f (AElement (target evt)) ;> ret tt
  | None => ret tt
  end.

(** src.addEventListener('dragend', function(evt) { ... }) *)
Definition dragend (ds : DragSource.t) : M HState unit :=
  let* evt := get_event in
  let* cur := get_current in
  match source cur with
  | Some _ =>
      match DragSource.onCancel ds with
      | Some f => call SourceOnCancel f (AElement (target evt)) ;> ret tt
      | None => ret tt
      end ;>
      set_source None ;>
      set_element None
  | None => ret tt
  end.

(** function setTargetProperties(dt, data) { } *)
Definition setTargetProperties (dt : DragTarget.t) : M HState unit := ret tt.

(** target.addEventListener('dragenter', function(evt) { ... }) *)
Definition dragenter (dt : DragTarget.t) : M HState unit :=
  let* evt := get_event in
  setTargetProperties dt ;>
  let* interested :=
    match DragTarget.onEnter dt with
    | None => ret true
    | Some f =>
        let* r := call TargetOnEnter f (AElement (target evt)) in
        ret (truthy r)
    end in
  if interested then preventDefault else ret tt.

(** target.addEventListener('dragleave', function(evt) { ... }) *)
Definition dragleave (dt : DragTarget.t) : M HState unit :=
  let* evt := get_event in
  match DragTarget.onLeave dt with
  | Some f => call TargetOnLeave f (AElement (target evt)) ;> ret tt
  | None => ret tt
  end.

(** target.addEventListener('dragover', function(evt) { ... }) *)
Definition dragover (dt : DragTarget.t) : M HState unit :=
  preventDefault.

(** target.addEventListener('drop', function(evt) { ... }) *)
Definition drop (dt : DragTarget.t) : M HState unit :=
  console_log "targetDrop" ;>
  let* evt := get_event in
  let tr := dataTransfer evt in
  match DragTarget.onDrop dt with
  | Some f =>
      let payload :=
        if (length (types tr) =? 1)%nat
        then PString (getData (nth 0 (types tr) "") tr)
        else PObject ∅ in
      let* payload := lift (fill_payload tr payload (types tr)) in
      let* cur := get_current in
      call TargetOnDrop f
        (ARecord {| DropRecord.fromElement := element cur;
                    DropRecord.toElement := target evt;
                    DropRecord.data := payload |}) ;>
      let* cur := get_current in
      match source cur with
      | None => throw TypeError   (* current.source is null *)
      | Some s =>
          match DragSource.onDrop s with
          | Some g =>
              let* cur := get_current in
              call SourceOnDrop g
                (ARecord {| DropRecord.fromElement := element cur;
                            DropRecord.toElement := target evt;
                            DropRecord.data := payload |}) ;> ret tt
          | None => ret tt
          end
      end ;>
      set_source None ;>
      set_element None
  | None => ret tt
  end.

Definition run_handler (h : Handler) : M HState unit :=
  match h with
  | SourceDragStart ds => dragstart ds
  | SourceDragEnd ds => dragend ds
  | TargetDragEnter dt => dragenter dt
  | TargetDragLeave dt => dragleave dt
  | TargetDragOver dt => dragover dt
  | TargetDrop dt => drop dt
  end.

(** The platform delivers the event [evt] to the listener [h]; an exception
    of the handler goes to the platform and the world stays as the handler
    left it. *)
Definition deliver (w : World) (d : Handler * Event) : World :=
  world (fst (run_handler (fst d) {| world := w; event := snd d |})).

(** A sequence of deliveries, oldest first. *)
Definition run (w : World) (ds : list (Handler * Event)) : World :=
  fold_left deliver ds w.

End Handlers.

(** ** The sibling copy src/js/dnd.js

    Its drag-enter handler has the same text; its [setTargetProperties] has a
    body.  (That copy has no registry; only what differs is embedded.) *)
Module DndJs.
Section Handlers.
Variable host : list Call -> Call -> Outcome.

(** function setTargetProperties(dt, data) { data.dropEffect = dt.effect; } *)
Definition setTargetProperties (dt : DragTarget.t) : M HState unit :=
  modify (on_transfer (set_dropEffect (DragTarget.effect dt))).

(** target.addEventListener('dragenter', function(evt) { ... }) *)
Definition dragenter (dt : DragTarget.t) : M HState unit :=
  let* evt := get_event in
  setTargetProperties dt ;>
  let* interested :=
    match DragTarget.onEnter dt with
    | None => ret true
    | Some f =>
        let* r := call host TargetOnEnter f (AElement (target evt)) in
        ret (truthy r)
    end in
  if interested then preventDefault else ret tt.
End Handlers.
End DndJs.

(** ** Vocabulary of the properties *)

(** Both fields empty, or both populated. *)
Definition registry_ok (r : Registry) : Prop :=
  (source r = None /\ element r = None) \/
  (is_Some (source r) /\ is_Some (element r)).

Definition site_eqb (a b : Site) : bool :=
  match a, b with
  | SourceOnStart, SourceOnStart | SourceOnCancel, SourceOnCancel
  | SourceOnDrop, SourceOnDrop | TargetOnEnter, TargetOnEnter
  | TargetOnLeave, TargetOnLeave | TargetOnDrop, TargetOnDrop => true
  | _, _ => false
  end.

(** How many calls of the log were made at the place [s]. *)
Definition count_site (s : Site) (l : list Call) : nat :=
  length (List.filter (fun c => site_eqb (site c) s) l).

(** The calls made between the world [w] and a later world [w']. *)
Definition new_calls (w w' : World) : list Call :=
  skipn (length (log w)) (log w').

(** Listeners of a drop target that run while the pointer hovers. *)
Definition is_hover (h : Handler) : bool :=
  match h with
  | TargetDragEnter _ | TargetDragLeave _ | TargetDragOver _ => true
  | _ => false
  end.

(** The host function [f] never raises. *)
Definition returns_normally (host : list Call -> Call -> Outcome) (f : Callback) : Prop :=
  forall l c, callee c = f -> exists v, host l c = Returns v.

(** A host whose callbacks all return undefined. *)
Definition quiet_host : list Call -> Call -> Outcome :=
  fun _ _ => Returns VUndefined.

(** One gesture from the element [from] of the source [ds] to the element
    [to] of the target [dt]: the platform hands the data store filled at
    drag-start to the drop event. *)
Definition drag_then_drop (host : list Call -> Call -> Outcome)
    (ds : DragSource.t) (dt : DragTarget.t) (from to : Element)
    (tr : DataTransfer) (w : World) : HState * result unit :=
  let st1 := fst (dragstart host ds {| world := w; event := fresh_event from tr |}) in
  drop host dt {| world := world st1;
                  event := fresh_event to (dataTransfer (event st1)) |}.

(** A transfer object with nothing set. *)
Definition empty_transfer : DataTransfer :=
  {| effectAllowed := "uninitialized"; dropEffect := "none";
     dragImage := None; store := [] |}.

(** What one element of [ds.data] writes into the transfer object. *)
Definition item_transfer (d : DataItem) (tr : DataTransfer) : DataTransfer :=
  match d with
  | DString s => setData "text" s tr
  | DPair type v => setData type v tr
  end.

(** The transfer object once setSourceProperties has run on it. *)
Definition source_transfer (ds : DragSource.t) (tr : DataTransfer) : DataTransfer :=
  let tr1 := set_effectAllowed (DragSource.effects ds) tr in
  let tr2 := match DragSource.view ds with
             | Some v => setDragImage (view_element v) (or_zero (x v)) (or_zero (y v)) tr1
             | None => tr1
             end in
  fold_left (fun tr d => item_transfer d tr) (DragSource.data ds) tr2.

(** The registry while the element [e] of the source [ds] is dragged. *)
Definition dragging (ds : DragSource.t) (e : Element) : Registry :=
  {| source := Some ds; element := Some e |}.

(** The call that the drag-start handler makes when the source has an
    onStart callback [f]. *)
Definition start_call (ds : DragSource.t) (evt : Event) (f : Callback) : Call :=
  {| site := SourceOnStart; callee := f; arg := AElement (target evt);
     seen_current := dragging ds (target evt);
     seen_transfer := source_transfer ds (dataTransfer evt) |}.

(** The call that the drag-end handler makes in the world [w] when the source
    has an onCancel callback [f]. *)
Definition cancel_call (w : World) (evt : Event) (f : Callback) : Call :=
  {| site := SourceOnCancel; callee := f; arg := AElement (target evt);
     seen_current := current w;
     seen_transfer := dataTransfer evt |}.

(** The call that the drag-enter handler makes in the world [w] when the
    target has an onEnter callback [f]. *)
Definition enter_call (w : World) (evt : Event) (f : Callback) : Call :=
  {| site := TargetOnEnter; callee := f; arg := AElement (target evt);
     seen_current := current w;
     seen_transfer := dataTransfer evt |}.

(** The record both onDrop callbacks receive. *)
Definition drop_record (w : World) (evt : Event) (payload : Payload) : DropRecord.t :=
  {| DropRecord.fromElement := element (current w);
     DropRecord.toElement := target evt;
     DropRecord.data := payload |}.

(** The calls of the drop handler: the target's callback [f], then the
    source's callback [g]. *)
Definition drop_call (s : Site) (w : World) (evt : Event) (payload : Payload)
    (f : Callback) : Call :=
  {| site := s; callee := f; arg := ARecord (drop_record w evt payload);
     seen_current := current w;
     seen_transfer := dataTransfer evt |}.

(** The registry is well formed, and was so at every call of a callback. *)
Definition world_ok (w : World) : Prop :=
  registry_ok (current w) /\
  Forall (fun c => registry_ok (seen_current c)) (log w).

(** What a call at the place SourceOnStart observes: a populated registry
    whose element is the argument of the call. *)
Definition start_view (c : Call) : Prop :=
  exists ds e, seen_current c = dragging ds e /\ arg c = AElement e.

(** What a call made by a handler that started in the world [w] observes. *)
Definition call_view (w : World) (c : Call) : Prop :=
  (site c = SourceOnStart /\ start_view c) \/
  (site c <> SourceOnStart /\ seen_current c = current w).

(** The options of the specification's scenario, with one effect: a source
    carrying the text "hello". *)
Definition hello_config : SourceConfig.t :=
  {| SourceConfig.data := DataOne (DString "hello");
     SourceConfig.effects := VStr "copy";
     SourceConfig.view := None;
     SourceConfig.onStart := None;
     SourceConfig.onCancel := Some 12;
     SourceConfig.onDrop := Some 13 |}.

(** The descriptors of the scenario: a source for the element 1 carrying the
    text "hello", a target for the element 2. *)
Definition hello_source : DragSource.t :=
  {| DragSource.sources := [1];
     DragSource.effects := "copy";
     DragSource.data := [DString "hello"];
     DragSource.view := None;
     DragSource.onStart := None;
     DragSource.onCancel := Some 12;
     DragSource.onDrop := Some 13 |}.

Definition copy_target : DragTarget.t :=
  {| DragTarget.targets := [2];
     DragTarget.effect := "copy";
     DragTarget.accepts := VUndefined;
     DragTarget.onEnter := Some 21;
     DragTarget.onLeave := None;
     DragTarget.onDrop := Some 23 |}.

(** A source that carries two types. *)
Definition two_types_source : DragSource.t :=
  {| DragSource.sources := [1];
     DragSource.effects := "copy";
     DragSource.data := [DPair "text" "a"; DPair "custom" "b"];
     DragSource.view := None;
     DragSource.onStart := None;
     DragSource.onCancel := Some 12;
     DragSource.onDrop := Some 13 |}.

(** The encoder fails with the error of the specification. *)
Definition fails (v : value) : Prop :=
  createEffectString v = Err InvalidConfiguration.

(** The input shapes for which the specification promises a token. *)
Definition is_absent (v : value) : Prop := v = VUndefined.
Definition is_string (v : value) : Prop := exists s, v = VStr s.
Definition is_string_collection (v : value) : Prop :=
  exists l : list string, v = VArr (map VStr l).

(** ** Further vocabulary *)

(** [array.reduce(f)] without an initial value: the first element starts the
    accumulation, an empty array raises. *)
Definition reduce (f : value -> value -> result value) (l : list value)
  : result value :=
  match l with
  | [] => Err TypeError
  | x :: rest =>
      fold_left (fun acc y => match acc with
                              | Ok a => f a y
                              | Err e => Err e
                              end) rest (Ok x)
  end.

(** The type and the value under which an element of [ds.data] is written. *)
Definition item_type (d : DataItem) : string :=
  match d with
  | DString _ => "text"
  | DPair type _ => type
  end.

Definition item_value (d : DataItem) : string :=
  match d with
  | DString s => s
  | DPair _ v => v
  end.

(** The value of the last element of [items] written under the type [t]. *)
Definition last_value (t : string) (items : list DataItem) : option string :=
  fold_left (fun acc d => if String.eqb (item_type d) t
                          then Some (item_value d) else acc) items None.

(** The listeners setupSourceEvents attaches, in order. *)
Definition source_listeners (ds : DragSource.t) : list (Element * string * Handler) :=
  flat_map (fun src => [(src, "dragstart", SourceDragStart ds);
                        (src, "dragend", SourceDragEnd ds)])
           (DragSource.sources ds).

(** The descriptor createTarget builds. *)
Definition target_descriptor (elmts : ElementArg) (options : TargetConfig.t)
  : DragTarget.t :=
  {| DragTarget.targets := as_array elmts;
     DragTarget.effect := TargetConfig.effect options;
     DragTarget.accepts := TargetConfig.accepts options;
     DragTarget.onEnter := TargetConfig.onEnter options;
     DragTarget.onLeave := TargetConfig.onLeave options;
     DragTarget.onDrop := TargetConfig.onDrop options |}.

(** The listeners setupTargetEvents attaches, in order. *)
Definition target_listeners (dt : DragTarget.t) : list (Element * string * Handler) :=
  flat_map (fun target => [(target, "dragenter", TargetDragEnter dt);
                           (target, "dragleave", TargetDragLeave dt);
                           (target, "dragover", TargetDragOver dt);
                           (target, "drop", TargetDrop dt)])
           (DragTarget.targets dt).

(** What a delivery to the listener [h] writes to the console. *)
Definition console_output (h : Handler) : list string :=
  match h with
  | TargetDrop _ => ["targetDrop"]
  | _ => []
  end.

(** A target without callbacks. *)
Definition silent_target : DragTarget.t :=
  {| DragTarget.targets := [5];
     DragTarget.effect := "move";
     DragTarget.accepts := VUndefined;
     DragTarget.onEnter := None;
     DragTarget.onLeave := None;
     DragTarget.onDrop := None |}.

(** A host whose callbacks all raise. *)
Definition raising_host : list Call -> Call -> Outcome :=
  fun _ _ => Throws (VStr "boom").

(** ** The source side of src/js/dnd.js

    In that copy the descriptor keeps [options.data] as it was given, the
    handlers do not use a registry, and setSourceProperties writes no data. *)
Module DndJsSource.

Record t : Type := {
  sources : list Element;
  effects : string;
  data : DataArg;
  view : option View;
  onStart : option Callback;
  onCancel : option Callback;
  onDrop : option Callback
}.

Section Handlers.
Variable host : list Call -> Call -> Outcome.

(** function setSourceProperties(ds, transfer) *)
Definition setSourceProperties (ds : t) : M HState unit :=
  modify (on_transfer (set_effectAllowed (effects ds))) ;>
  match view ds with
  | Some v =>
      modify (on_transfer
        (setDragImage (view_element v) (or_zero (x v)) (or_zero (y v))))
  | None => ret tt
  end.

(** src.addEventListener('dragstart', function(evt) { ... }) *)
Definition dragstart (ds : t) : M HState unit :=
  let* evt := get_event in
  setSourceProperties ds ;>
  match onStart ds with
  | Some f => call host SourceOnStart f (AElement (target evt)) ;> ret tt
  | None => ret tt
  end.

(** src.addEventListener('dragend', function(evt) { ... }) *)
Definition dragend (ds : t) : M HState unit :=
  let* evt := get_event in
  match onCancel ds with
  | Some f => call host SourceOnCancel f (AElement (target evt)) ;> ret tt
  | None => ret tt
  end.

End Handlers.

(** The closures that copy passes to addEventListener. *)
Inductive Handler : Type :=
| DragStart (ds : t)
| DragEnd (ds : t).

(** The elements as that copy changes them. *)
Record Dom : Type := {
  attributes : gmap (Element * string) string;
  listeners : list (Element * string * Handler)
}.

(** function checkOptions(options) {} *)
Definition checkOptions (options : SourceConfig.t) : M Dom unit := ret tt.

Definition setAttribute (e : Element) (name v : string) : M Dom unit :=
  modify (fun d =>
    {| attributes := <[(e, name) := v]> (attributes d);
       listeners := listeners d |}).

Definition addEventListener (e : Element) (type : string) (h : Handler)
  : M Dom unit :=
  modify (fun d =>
    {| attributes := attributes d;
       listeners := listeners d ++ [(e, type, h)] |}).

(** function makeDraggable(ds) *)
Definition makeDraggable (ds : t) : M Dom unit :=
  forEach (sources ds) (fun src => setAttribute src "draggable" "true").

(** function setupSourceEvents(ds) *)
Definition setupSourceEvents (ds : t) : M Dom unit :=
  forEach (sources ds) (fun src =>
    addEventListener src "dragstart" (DragStart ds) ;>
    addEventListener src "dragend" (DragEnd ds)).

(** exports.createSource = function(src, options) *)
Definition createSource (src : ElementArg) (options : SourceConfig.t)
  : M Dom t :=
  checkOptions options ;>
  let sources := as_array src in
  let* effects := lift (createEffectString (SourceConfig.effects options)) in
  let that :=
    {| sources := sources;
       effects := effects;
       data := SourceConfig.data options;
       view := SourceConfig.view options;
       onStart := SourceConfig.onStart options;
       onCancel := SourceConfig.onCancel options;
       onDrop := SourceConfig.onDrop options |} in
  makeDraggable that ;>
  setupSourceEvents that ;>
  ret that.

(** The descriptor that createSource builds once the effects are encoded as
    [token], and the listeners it attaches, in order. *)
Definition descriptor (src : ElementArg) (options : SourceConfig.t)
    (token : string) : t :=
  {| sources := as_array src;
     effects := token;
     data := SourceConfig.data options;
     view := SourceConfig.view options;
     onStart := SourceConfig.onStart options;
     onCancel := SourceConfig.onCancel options;
     onDrop := SourceConfig.onDrop options |}.

Definition descriptor_listeners (ds : t) : list (Element * string * Handler) :=
  flat_map (fun src => [(src, "dragstart", DragStart ds);
                        (src, "dragend", DragEnd ds)])
           (sources ds).

(** No attribute, no listener. *)
Definition no_dom : Dom := {| attributes := ∅; listeners := [] |}.

End DndJsSource.

(** * Properties *)

(** ** The effect encoder *)

Lemma typeof_string (v : value) :
  typeof v = "string" <-> is_string v.
Proof.
  split.
  - destruct v; simpl; intros H; try discriminate H. now exists s.
  - intros [s ->]. reflexivity.
Qed.

(** Every array is rejected, whatever it holds: an array is truthy and its
    typeof is "object". *)
Lemma createEffectString_array (items : list value) :
  createEffectString (VArr items) = Err InvalidConfiguration.
Proof. reflexivity. Qed.

(** Every falsy input takes the first branch and yields "none". *)
Lemma createEffectString_falsy (v : value) :
  truthy v = false -> createEffectString v = Ok "none".
Proof. intros H. unfold createEffectString. now rewrite H. Qed.

(** A non-empty string is returned unchanged. *)
Lemma createEffectString_string (s : string) :
  s <> "" -> createEffectString (VStr s) = Ok s.
Proof.
  intros H. unfold createEffectString. simpl.
  destruct (String.eqb_spec s ""); [contradiction | reflexivity].
Qed.

(** On the inputs that are not collections, the code follows the rule of the
    specification. *)
Lemma createEffectString_scalar (v : value) :
  valid_input v = true -> (forall items, v <> VArr items) ->
  createEffectString v = Ok (encode_rule (normalized v)).
Proof.
  intros Hv Hna. destruct v; simpl in Hv; try discriminate Hv.
  - reflexivity.
  - change (createEffectString (VStr s) = Ok s).
    apply createEffectString_string. intros ->. discriminate Hv.
  - now destruct (Hna items).
Qed.

(** The default case of the switch raises as soon as it is entered: the
    argument of reduce is [camelCase(effects)], with [second] undefined. *)
Lemma camelCase_of_array (l : list value) :
  camelCase (VArr l) VUndefined = Err TypeError.
Proof. reflexivity. Qed.

(** C1 (the code at a collection of two effect names).  The input
    ["move","copy"] is valid and the rule of the specification gives it the
    token "copyMove", as it does for ["copy","move"]; createEffectString
    raises the error 'cannot create effect string' on both, and on the full
    set, which the rule maps to "all". *)
Theorem createEffectString_two_effects :
  valid_input (VArr [VStr "move"; VStr "copy"]) = true /\
  encode_rule (normalized (VArr [VStr "move"; VStr "copy"])) = "copyMove" /\
  encode_rule (normalized (VArr [VStr "copy"; VStr "move"])) = "copyMove" /\
  encode_rule (normalized (VArr [VStr "move"; VStr "copy"; VStr "link"])) = "all" /\
  createEffectString (VArr [VStr "move"; VStr "copy"]) = Err InvalidConfiguration /\
  createEffectString (VArr [VStr "copy"; VStr "move"]) = Err InvalidConfiguration /\
  createEffectString (VArr [VStr "move"; VStr "copy"; VStr "link"]) = Err InvalidConfiguration.
Proof. repeat split; vm_compute; reflexivity. Qed.

(** C6 as stated fails at the number 0: it is neither absent, nor a string,
    nor a collection of strings, and the encoder returns "none" for it. *)
Lemma encoder_accepts_zero :
  ~ (fails (VNum 0) <->
     ~ (is_absent (VNum 0) \/ is_string (VNum 0) \/ is_string_collection (VNum 0))).
Proof.
  intros [_ H].
  assert (Hf : fails (VNum 0)).
  { apply H. intros [Ha | [[s Hs] | [l Hl]]]; discriminate. }
  discriminate Hf.
Qed.

(** ** createSource *)

(** C9.  In src/js/dnd.js, when the effect encoder raises while createSource
    builds the descriptor, createSource raises that error and the elements are
    as they were: no attribute has been set and no listener attached.  In the
    module with the registry createSource first calls checkOptions, which is
    not defined there: every call raises a ReferenceError before the encoder
    runs, and it too leaves everything as it was. *)
Theorem createSource_aborts (src : ElementArg) (options : SourceConfig.t) :
  (forall (d : DndJsSource.Dom) (e : exn),
     createEffectString (SourceConfig.effects options) = Err e ->
     DndJsSource.createSource src options d = (d, Err e)) /\
  (forall w : World,
     createSource src options w = (w, Err (ReferenceError "checkOptions"))).
Proof.
  split.
  - intros d e H.
    unfold DndJsSource.createSource, DndJsSource.checkOptions, bind, ret, lift.
    now rewrite H.
  - intros w. reflexivity.
Qed.

Lemma createSource_aborts_witness :
  createEffectString (VNum 42) = Err InvalidConfiguration /\
  DndJsSource.createSource (ManyElements [1; 2])
    {| SourceConfig.data := DataOne (DString "hello");
       SourceConfig.effects := VNum 42;
       SourceConfig.view := None;
       SourceConfig.onStart := None;
       SourceConfig.onCancel := None;
       SourceConfig.onDrop := None |} DndJsSource.no_dom
  = (DndJsSource.no_dom, Err InvalidConfiguration).
Proof.
  split; [reflexivity |].
  apply (createSource_aborts (ManyElements [1; 2])
           {| SourceConfig.data := DataOne (DString "hello");
              SourceConfig.effects := VNum 42;
              SourceConfig.view := None;
              SourceConfig.onStart := None;
              SourceConfig.onCancel := None;
              SourceConfig.onDrop := None |}).
  reflexivity.
Defined.

(** With an accepted effect, createSource of src/js/dnd.js marks every
    element and gives it its two listeners: the failure above is the only way
    out before registration. *)
Example createSource_registers :
  let r := DndJsSource.createSource (ManyElements [1; 2]) hello_config
             DndJsSource.no_dom in
  DndJsSource.attributes (fst r) !! (1, "draggable") = Some "true" /\
  DndJsSource.attributes (fst r) !! (2, "draggable") = Some "true" /\
  map (fun l => (fst (fst l), snd (fst l))) (DndJsSource.listeners (fst r)) =
    [(1, "dragstart"); (1, "dragend"); (2, "dragstart"); (2, "dragend")].
Proof. vm_compute. repeat split. Qed.

(** ** Equations of the handlers *)

Lemma HState_eta (st : HState) :
  st = {| world := world st;
          event := {| target := target (event st);
                      dataTransfer := dataTransfer (event st);
                      defaultPrevented := defaultPrevented (event st) |} |}.
Proof. now destruct st as [w [t tr p]]. Qed.

Section HandlerEquations.

Variable host : list Call -> Call -> Outcome.

(** The loop over [ds.data] only writes into the transfer object. *)
Lemma data_loop (l : list DataItem) (st : HState) :
  forEach l (fun d =>
    match d with
    | DString s => modify (on_transfer (setData "text" s))
    | DPair type v => modify (on_transfer (setData type v))
    end) st
  = (on_transfer (fun tr => fold_left (fun tr d => item_transfer d tr) l tr) st, Ok tt).
Proof.
  revert st. induction l as [| d l IH]; intros st.
  - simpl. unfold ret. now rewrite (HState_eta st) at 1.
  - simpl. unfold bind. destruct d; simpl; unfold modify; rewrite IH; reflexivity.
Qed.

Lemma setSourceProperties_eq (ds : DragSource.t) (st : HState) :
  setSourceProperties ds st = (on_transfer (source_transfer ds) st, Ok tt).
Proof.
  unfold setSourceProperties, bind, modify.
  destruct (DragSource.view ds) as [v |] eqn:Hv; simpl;
    rewrite data_loop; unfold source_transfer; rewrite Hv; reflexivity.
Qed.

(** The world after the drag-start handler, whatever its callback does. *)
Lemma dragstart_world (ds : DragSource.t) (w : World) (evt : Event) :
  world (fst (dragstart host ds {| world := w; event := evt |})) =
  with_log (log w ++ match DragSource.onStart ds with
                     | Some f => [start_call ds evt f]
                     | None => []
                     end)
           (with_current (dragging ds (target evt)) w).
Proof.
  unfold dragstart, bind, get_event, set_source, set_element, modify. simpl.
  rewrite setSourceProperties_eq. simpl.
  destruct (DragSource.onStart ds) as [f |]; simpl.
  - unfold call. simpl. fold (dragging ds (target evt)).
    fold (start_call ds evt f).
    destruct (host _ _); reflexivity.
  - unfold ret, with_log, with_current. simpl. now rewrite app_nil_r.
Qed.

End HandlerEquations.

Section SourceHandlers.

Variable host : list Call -> Call -> Outcome.

(** Drag-end after a drop has cleared the registry: nothing happens. *)
Lemma dragend_idle (ds : DragSource.t) (w : World) (evt : Event) :
  source (current w) = None ->
  dragend host ds {| world := w; event := evt |} =
  ({| world := w; event := evt |}, Ok tt).
Proof.
  intros H. unfold dragend, bind, get_event, get_current. simpl.
  now rewrite H.
Qed.

(** Drag-end while the registry is populated: the cancellation. *)
Lemma dragend_world (ds : DragSource.t) (w : World) (evt : Event) :
  is_Some (source (current w)) ->
  (forall f, DragSource.onCancel ds = Some f -> returns_normally host f) ->
  world (fst (dragend host ds {| world := w; event := evt |})) =
  with_current idle
    (with_log (log w ++ match DragSource.onCancel ds with
                        | Some f => [cancel_call w evt f]
                        | None => []
                        end) w).
Proof.
  intros [s Hs] Hret.
  unfold dragend, bind, get_event, get_current. simpl. rewrite Hs.
  destruct (DragSource.onCancel ds) as [f |]; simpl.
  - unfold call. simpl. fold (cancel_call w evt f).
    destruct (Hret f eq_refl (log w) (cancel_call w evt f) eq_refl) as [v ->].
    reflexivity.
  - unfold with_log, with_current. simpl. now rewrite app_nil_r.
Qed.

(** Drag-end while the registry is populated, whatever onCancel does: the
    registry is cleared unless the callback raises. *)
Lemma dragend_outcome (ds : DragSource.t) (w : World) (evt : Event) :
  is_Some (source (current w)) ->
  let w' := world (fst (dragend host ds {| world := w; event := evt |})) in
  match DragSource.onCancel ds with
  | None => log w' = log w /\ current w' = idle
  | Some f =>
      log w' = log w ++ [cancel_call w evt f] /\
      current w' = match host (log w) (cancel_call w evt f) with
                   | Returns _ => idle
                   | Throws _ => current w
                   end
  end.
Proof.
  intros [s Hs].
  unfold dragend, bind, get_event, get_current, call, cancel_call. simpl.
  rewrite Hs.
  destruct (DragSource.onCancel ds) as [f |]; simpl.
  - destruct (host _ _); simpl; now split.
  - now split.
Qed.

End SourceHandlers.

(** ** The drop handler *)

(** Filling an object: every available type is mapped to its value; the
    name [__proto__] is not stored. *)
Lemma fill_payload_object (tr : DataTransfer) (ts : list string)
    (m0 : gmap string string) :
  exists m, fill_payload tr (PObject m0) ts = Ok (PObject m) /\
    forall t, m !! t = if decide (t ∈ ts /\ t <> "__proto__")
                       then Some (getData t tr) else m0 !! t.
Proof.
  revert m0. induction ts as [| t0 ts IH]; intros m0.
  - exists m0. split; [reflexivity |]. intros t.
    destruct (decide (t ∈ [] /\ t <> "__proto__")) as [[Hin _] |];
      [| reflexivity].
    now apply not_elem_of_nil in Hin.
  - simpl. unfold payload_set.
    destruct (String.eqb_spec t0 "__proto__") as [-> | Hproto].
    + destruct (IH m0) as (m & Hm & Hl). exists m. split; [exact Hm |].
      intros t. rewrite Hl.
      destruct (decide (t ∈ ts /\ t <> "__proto__")) as [[Hin Hn] | Hno];
        destruct (decide (t ∈ "__proto__" :: ts /\ t <> "__proto__"))
          as [[Hin' Hn'] | Hno']; try reflexivity.
      * destruct Hno'. split; [now apply elem_of_cons; right | exact Hn].
      * apply elem_of_cons in Hin' as [-> | Hin']; [contradiction |].
        destruct Hno. now split.
    + destruct (IH (<[t0 := getData t0 tr]> m0)) as (m & Hm & Hl).
      exists m. split; [exact Hm |]. intros t. rewrite Hl.
      destruct (decide (t ∈ ts /\ t <> "__proto__")) as [[Hin Hn] | Hno];
        destruct (decide (t ∈ t0 :: ts /\ t <> "__proto__"))
          as [[Hin' Hn'] | Hno']; try reflexivity.
      * destruct Hno'. split; [now apply elem_of_cons; right | exact Hn].
      * apply elem_of_cons in Hin' as [-> | Hin'].
        -- apply lookup_insert_eq.
        -- destruct Hno. now split.
      * apply lookup_insert_ne. intros ->. apply Hno'.
        split; [now apply elem_of_cons; left | exact Hproto].
Qed.

(** Filling a string: the first assignment raises, unless it is to
    [__proto__]. *)
Lemma fill_payload_string (tr : DataTransfer) (s t : string)
    (ts : list string) :
  t <> "__proto__" -> fill_payload tr (PString s) (t :: ts) = Err TypeError.
Proof.
  intros H. simpl. unfold payload_set.
  destruct (String.eqb_spec t "__proto__"); [contradiction | reflexivity].
Qed.

Section TargetHandlers.

Variable host : list Call -> Call -> Outcome.

(** A target without onDrop: the handler only writes to the console; the
    registry stays as it was. *)
Lemma drop_no_callback (dt : DragTarget.t) (w : World) (evt : Event) :
  DragTarget.onDrop dt = None ->
  let r := drop host dt {| world := w; event := evt |} in
  snd r = Ok tt /\ current (world (fst r)) = current w /\
  log (world (fst r)) = log w.
Proof.
  intros H. unfold drop, bind, console_log, get_event, modify. simpl.
  rewrite H. now simpl.
Qed.

(** Exactly one available type, other than [__proto__]: the handler raises
    before any callback. *)
Lemma drop_single_type (dt : DragTarget.t) (w : World) (evt : Event)
    (f : Callback) (t : string) :
  DragTarget.onDrop dt = Some f ->
  types (dataTransfer evt) = [t] ->
  t <> "__proto__" ->
  let r := drop host dt {| world := w; event := evt |} in
  snd r = Err TypeError /\ current (world (fst r)) = current w /\
  log (world (fst r)) = log w.
Proof.
  intros H Ht Hproto.
  unfold drop, bind, console_log, get_event, modify, lift. simpl.
  rewrite H, Ht. simpl. unfold payload_set.
  destruct (String.eqb_spec t "__proto__"); [contradiction | now simpl].
Qed.

(** Any other number of types, both callbacks present and returning: the
    target's callback, then the source's, with the same record; the registry
    is cleared afterwards. *)
Lemma drop_notifies_both (dt : DragTarget.t) (ds : DragSource.t)
    (w : World) (evt : Event) (f g : Callback) :
  DragTarget.onDrop dt = Some f ->
  source (current w) = Some ds ->
  DragSource.onDrop ds = Some g ->
  length (types (dataTransfer evt)) <> 1 ->
  returns_normally host f -> returns_normally host g ->
  exists m,
    (forall t, m !! t = if decide (t ∈ types (dataTransfer evt) /\
                                   t <> "__proto__")
                        then Some (getData t (dataTransfer evt)) else None) /\
    let r := drop host dt {| world := w; event := evt |} in
    snd r = Ok tt /\ current (world (fst r)) = idle /\
    log (world (fst r)) =
      log w ++ [drop_call TargetOnDrop w evt (PObject m) f;
                drop_call SourceOnDrop w evt (PObject m) g].
Proof.
  intros Hf Hs Hg Hlen Rf Rg.
  destruct (fill_payload_object (dataTransfer evt) (types (dataTransfer evt)) ∅)
    as (m & Hm & Hl).
  exists m. split.
  { intros t. rewrite Hl. now rewrite lookup_empty. }
  unfold drop, bind, console_log, get_event, get_current, modify, lift, call,
    set_source, set_element, throw, ret, on_world, with_log, with_current.
  simpl. rewrite Hf.
  destruct (Nat.eqb_spec (length (types (dataTransfer evt))) 1) as [E | _];
    [contradiction |].
  rewrite Hm. simpl.
  match goal with
  | |- context [host ?l ?c] => destruct (Rf l c eq_refl) as [v ->]
  end.
  simpl. rewrite Hs, Hg. simpl.
  match goal with
  | |- context [host ?l ?c] => destruct (Rg l c eq_refl) as [v' ->]
  end.
  simpl. rewrite <- app_assoc. repeat split.
Qed.

(** What the drop handler can do to the registry and to the log. *)
Lemma drop_log (dt : DragTarget.t) (w : World) (evt : Event) :
  let w' := world (fst (drop host dt {| world := w; event := evt |})) in
  (current w' = current w \/ current w' = idle) /\
  exists calls, log w' = log w ++ calls /\
    Forall (fun c => (site c = TargetOnDrop \/ site c = SourceOnDrop) /\
                     seen_current c = current w) calls.
Proof.
  unfold drop, bind, console_log, get_event, get_current, modify, lift, call,
    set_source, set_element, throw, ret, on_world, with_log, with_current; simpl.
  repeat (case_match; simpl in * ).
  all: simplify_eq; simpl.
  all: split; [first [left; reflexivity | right; reflexivity] |].
  all: try (exists []; split; [now rewrite app_nil_r | constructor]).
  all: rewrite <- ?app_assoc; simpl.
  all: eexists; split; [reflexivity |].
  all: repeat (apply Forall_cons; split; [split; [simpl; auto | reflexivity] |]).
  all: apply Forall_nil; exact I.
Qed.

(** The listeners that run while the pointer hovers leave the registry
    alone and call only onEnter and onLeave. *)
Lemma hover_log (h : Handler) (w : World) (evt : Event) :
  is_hover h = true ->
  let w' := deliver host w (h, evt) in
  current w' = current w /\
  exists calls, log w' = log w ++ calls /\
    Forall (fun c => (site c = TargetOnEnter \/ site c = TargetOnLeave) /\
                     seen_current c = current w) calls.
Proof.
  intros Hh. destruct h; try discriminate Hh; clear Hh.
  all: unfold deliver, run_handler, dragenter, dragleave, dragover,
    setTargetProperties, preventDefault, bind, get_event, modify, call, ret,
    on_world, with_log; simpl.
  all: repeat (case_match; simpl in * ).
  all: simplify_eq; simpl.
  all: split; [reflexivity |].
  all: try (exists []; split; [now rewrite app_nil_r | constructor]).
  all: eexists; split; [reflexivity |].
  all: repeat (apply Forall_cons; split; [split; [simpl; auto | reflexivity] |]).
  all: apply Forall_nil; exact I.
Qed.

End TargetHandlers.

(** ** The registry along any sequence of deliveries *)

Lemma new_calls_app (w w' : World) (calls : list Call) :
  log w' = log w ++ calls -> new_calls w w' = calls.
Proof. intros H. unfold new_calls. rewrite H. apply drop_app_length. Qed.

Lemma dragging_not_idle (ds : DragSource.t) (e : Element) :
  dragging ds e <> idle.
Proof. discriminate. Qed.

Lemma registry_ok_idle : registry_ok idle.
Proof. now left. Qed.

Lemma registry_ok_dragging (ds : DragSource.t) (e : Element) :
  registry_ok (dragging ds e).
Proof. right. split; eexists; reflexivity. Qed.

Create HintDb registry.
#[local] Hint Resolve registry_ok_idle registry_ok_dragging : registry.

Section Reachable.

Variable host : list Call -> Call -> Outcome.

(** What the drag-end handler can do to the registry and to the log. *)
Lemma dragend_log (ds : DragSource.t) (w : World) (evt : Event) :
  let w' := world (fst (dragend host ds {| world := w; event := evt |})) in
  (current w' = current w \/ current w' = idle) /\
  exists calls, log w' = log w ++ calls /\
    Forall (fun c => site c = SourceOnCancel /\ seen_current c = current w) calls.
Proof.
  unfold dragend, bind, get_event, get_current, modify, call,
    set_source, set_element, ret, on_world, with_log, with_current; simpl.
  repeat (case_match; simpl in * ).
  all: simplify_eq; simpl.
  all: split; [first [left; reflexivity | right; reflexivity] |].
  all: try (exists []; split; [now rewrite app_nil_r | constructor]).
  all: eexists; split; [reflexivity |].
  all: repeat (apply Forall_cons; split; [split; reflexivity |]).
  all: apply Forall_nil; exact I.
Qed.

(** One delivery: the registry is left as it was, cleared, or populated with
    both fields; each callback called on the way saw the registry the
    handler started with, except onStart, which saw it populated. *)
Lemma deliver_view (w : World) (d : Handler * Event) :
  let w' := deliver host w d in
  (current w' = current w \/ current w' = idle \/
   exists ds e, current w' = dragging ds e) /\
  exists calls, log w' = log w ++ calls /\ Forall (call_view w) calls.
Proof.
  destruct d as [h evt]. destruct h as [ds | ds | dt | dt | dt | dt].
  - unfold deliver. simpl. rewrite dragstart_world. simpl. split.
    + right. right. now exists ds, (target evt).
    + eexists. split; [reflexivity |].
      destruct (DragSource.onStart ds) as [f |]; constructor; [| constructor].
      left. split; [reflexivity |]. now exists ds, (target evt).
  - destruct (dragend_log ds w evt) as (Hc & calls & Hl & Hv). split.
    + destruct Hc as [Hc | Hc]; [left | right; left]; exact Hc.
    + exists calls. split; [exact Hl |].
      eapply Forall_impl; [exact Hv |]. intros c [Hs Hseen]. right.
      split; [rewrite Hs; discriminate | exact Hseen].
  - destruct (hover_log host (TargetDragEnter dt) w evt eq_refl)
      as (Hc & calls & Hl & Hv).
    split; [now left |]. exists calls. split; [exact Hl |].
    eapply Forall_impl; [exact Hv |]. intros c [Hs Hseen]. right.
    split; [destruct Hs as [-> | ->]; discriminate | exact Hseen].
  - destruct (hover_log host (TargetDragLeave dt) w evt eq_refl)
      as (Hc & calls & Hl & Hv).
    split; [now left |]. exists calls. split; [exact Hl |].
    eapply Forall_impl; [exact Hv |]. intros c [Hs Hseen]. right.
    split; [destruct Hs as [-> | ->]; discriminate | exact Hseen].
  - destruct (hover_log host (TargetDragOver dt) w evt eq_refl)
      as (Hc & calls & Hl & Hv).
    split; [now left |]. exists calls. split; [exact Hl |].
    eapply Forall_impl; [exact Hv |]. intros c [Hs Hseen]. right.
    split; [destruct Hs as [-> | ->]; discriminate | exact Hseen].
  - destruct (drop_log host dt w evt) as (Hc & calls & Hl & Hv). split.
    + destruct Hc as [Hc | Hc]; [left | right; left]; exact Hc.
    + exists calls. split; [exact Hl |].
      eapply Forall_impl; [exact Hv |]. intros c [Hs Hseen]. right.
      split; [destruct Hs as [-> | ->]; discriminate | exact Hseen].
Qed.

Lemma deliver_ok (w : World) (d : Handler * Event) :
  world_ok w -> world_ok (deliver host w d).
Proof.
  intros [Hcur Hlog].
  destruct (deliver_view w d) as (Hc & calls & Hl & Hv). split.
  - destruct Hc as [-> | [-> | (ds & e & ->)]]; auto with registry.
  - rewrite Hl. apply Forall_app. split; [exact Hlog |].
    eapply Forall_impl; [exact Hv |].
    intros c [[_ (ds & e & -> & _)] | [_ ->]]; auto with registry.
Qed.

Lemma run_ok (events : list (Handler * Event)) (w : World) :
  world_ok w -> world_ok (run host w events).
Proof.
  revert w. induction events as [| d events IH]; intros w Hw.
  - exact Hw.
  - simpl. apply IH. now apply deliver_ok.
Qed.

(** Calls at the place SourceOnStart always saw a populated registry. *)
Lemma run_start_view (events : list (Handler * Event)) (w : World) :
  Forall (fun c => site c = SourceOnStart -> start_view c) (log w) ->
  Forall (fun c => site c = SourceOnStart -> start_view c)
         (log (run host w events)).
Proof.
  revert w. induction events as [| d events IH]; intros w Hw.
  - exact Hw.
  - simpl. apply IH.
    destruct (deliver_view w d) as (_ & calls & Hl & Hv).
    rewrite Hl. apply Forall_app. split; [exact Hw |].
    eapply Forall_impl; [exact Hv |].
    intros c [[_ Hs] | [Hn _]] Hsite; [exact Hs | contradiction].
Qed.

End Reachable.

(** C8.  From the world in which the module is loaded, after any sequence of
    deliveries to any listeners of any sources and targets, and whatever the
    callbacks do (return or raise), the registry has both fields empty or both
    populated; the same holds of the registry as every callback saw it. *)
Theorem registry_invariant (host : list Call -> Call -> Outcome)
    (events : list (Handler * Event)) :
  registry_ok (current (run host initial events)) /\
  Forall (fun c => registry_ok (seen_current c)) (log (run host initial events)).
Proof.
  apply run_ok. split; [apply registry_ok_idle | constructor].
Qed.

(** C10.  The drag-start handler leaves the registry populated with its
    source and the dragged element; it calls onStart, when the source has one,
    exactly once, with the dragged element, and the callee sees the registry
    already populated, with that element as active element.  Along any
    sequence of deliveries no call of onStart ever saw an idle registry. *)
Theorem onStart_sees_registry (host : list Call -> Call -> Outcome)
    (ds : DragSource.t) (w : World) (evt : Event) :
  let w' := deliver host w (SourceDragStart ds, evt) in
  current w' = dragging ds (target evt) /\
  length (new_calls w w') =
    match DragSource.onStart ds with Some _ => 1 | None => 0 end /\
  Forall (fun c => site c = SourceOnStart /\
                   Some (callee c) = DragSource.onStart ds /\
                   arg c = AElement (target evt) /\
                   source (seen_current c) = Some ds /\
                   element (seen_current c) = Some (target evt) /\
                   seen_current c <> idle)
         (new_calls w w') /\
  (forall events,
     Forall (fun c => site c = SourceOnStart ->
                      start_view c /\ seen_current c <> idle)
            (log (run host initial events))).
Proof.
  simpl. unfold deliver. simpl.
  pose proof (dragstart_world host ds w evt) as Hw.
  split; [now rewrite Hw |].
  assert (Hn : new_calls w
                 (world (fst (dragstart host ds {| world := w; event := evt |})))
               = match DragSource.onStart ds with
                 | Some f => [start_call ds evt f]
                 | None => []
                 end).
  { apply new_calls_app. now rewrite Hw. }
  rewrite Hn. split; [| split].
  - now destruct (DragSource.onStart ds).
  - destruct (DragSource.onStart ds) as [f |]; constructor; [| constructor].
    repeat split. apply dragging_not_idle.
  - intros events.
    eapply Forall_impl; [apply (run_start_view host events initial); constructor |].
    intros c H Hs. split; [now apply H |].
    destruct (H Hs) as (ds' & e' & -> & _). apply dragging_not_idle.
Qed.

(** ** Gestures *)

Lemma site_eqb_eq (a b : Site) : site_eqb a b = true <-> a = b.
Proof. destruct a, b; simpl; split; intros H; congruence. Qed.

Lemma count_site_app (s : Site) (a b : list Call) :
  count_site s (a ++ b) = count_site s a + count_site s b.
Proof. unfold count_site. now rewrite List.filter_app, length_app. Qed.

Lemma count_site_zero (s : Site) (l : list Call) :
  Forall (fun c => site c <> s) l -> count_site s l = 0.
Proof.
  induction 1 as [| c l Hc _ IH]; [reflexivity |].
  unfold count_site in *. simpl.
  destruct (site_eqb (site c) s) eqn:E; [| exact IH].
  apply site_eqb_eq in E. contradiction.
Qed.

Section Gestures.

Variable host : list Call -> Call -> Outcome.

(** Any number of hover events leaves the registry as it was. *)
Lemma run_hover (hovers : list (Handler * Event)) (w : World) :
  Forall (fun d => is_hover (fst d) = true) hovers ->
  current (run host w hovers) = current w /\
  exists calls, log (run host w hovers) = log w ++ calls /\
    Forall (fun c => site c = TargetOnEnter \/ site c = TargetOnLeave) calls.
Proof.
  intros H. revert w.
  induction H as [| [h evt] hovers Hh _ IH]; intros w.
  - split; [reflexivity |]. exists []. split; [now rewrite app_nil_r | constructor].
  - simpl. destruct (IH (deliver host w (h, evt))) as (Hc & calls & Hl & Hs).
    destruct (hover_log host h w evt Hh) as (Hc0 & calls0 & Hl0 & Hs0).
    split; [now rewrite Hc, Hc0 |].
    exists (calls0 ++ calls). split.
    + now rewrite Hl, Hl0, app_assoc.
    + apply Forall_app. split; [| exact Hs].
      eapply Forall_impl; [exact Hs0 |]. now intros c [Hsite _].
Qed.

End Gestures.




(** ** Drag-enter *)

Section DragEnter.

Variable host : list Call -> Call -> Outcome.

(** The handler of this module never writes into the transfer object, and
    its callback sees the transfer object as the event brought it. *)
Lemma dragenter_transfer (dt : DragTarget.t) (w : World) (evt : Event) :
  let st' := fst (dragenter host dt {| world := w; event := evt |}) in
  dataTransfer (event st') = dataTransfer evt /\
  log (world st') = log w ++ match DragTarget.onEnter dt with
                             | Some f => [enter_call w evt f]
                             | None => []
                             end.
Proof.
  unfold dragenter, setTargetProperties, preventDefault, bind, get_event,
    modify, call, ret, on_world, with_log; simpl.
  destruct (DragTarget.onEnter dt) as [f |]; simpl.
  - fold (enter_call w evt f).
    destruct (host (log w) (enter_call w evt f)) as [v | v]; simpl;
      [destruct (truthy v) |]; simpl; now split.
  - now rewrite app_nil_r.
Qed.

(** The handler of src/js/dnd.js writes the effect of the target first: the
    callback sees it, and it is in the transfer object afterwards. *)
Lemma dndjs_dragenter_dropEffect (dt : DragTarget.t) (w : World) (evt : Event) :
  let st' := fst (DndJs.dragenter host dt {| world := w; event := evt |}) in
  dropEffect (dataTransfer (event st')) = DragTarget.effect dt /\
  Forall (fun c => dropEffect (seen_transfer c) = DragTarget.effect dt)
         (new_calls w (world st')) /\
  length (new_calls w (world st')) =
    match DragTarget.onEnter dt with Some _ => 1 | None => 0 end.
Proof.
  unfold DndJs.dragenter, DndJs.setTargetProperties, preventDefault, bind,
    get_event, modify, call, ret, on_world, on_transfer, with_log, new_calls;
    simpl.
  destruct (DragTarget.onEnter dt) as [f |]; simpl.
  - match goal with
    | |- context [host ?l ?c] => destruct (host l c) as [v | v]
    end; simpl; [destruct (truthy v) |]; simpl;
      rewrite drop_app_length; repeat split; repeat constructor.
  - rewrite drop_all. repeat split. constructor.
Qed.

End DragEnter.

(** C4 (the code at a drag-enter).  The target is configured with the effect
    "copy" and the transfer object arrives with the drop effect "none".  With
    the handler of this module the onEnter callback sees "none" and the field
    still holds "none" afterwards: setTargetProperties has an empty body.
    With the handler of src/js/dnd.js the callback sees "copy". *)
Theorem dragenter_dropEffect_unwritten :
  let st := {| world := initial; event := fresh_event 2 empty_transfer |} in
  let r := fst (dragenter quiet_host copy_target st) in
  let r' := fst (DndJs.dragenter quiet_host copy_target st) in
  DragTarget.effect copy_target = "copy" /\
  dropEffect (dataTransfer (event r)) = "none" /\
  map (fun c => (site c, callee c, dropEffect (seen_transfer c))) (log (world r))
    = [(TargetOnEnter, 21, "none")] /\
  dropEffect (dataTransfer (event r')) = "copy" /\
  map (fun c => (site c, callee c, dropEffect (seen_transfer c))) (log (world r'))
    = [(TargetOnEnter, 21, "copy")].
Proof. vm_compute. repeat split. Qed.

(** C7.  For a drag-enter event as the platform delivers it: a target without
    an onEnter callback always signals acceptance (preventDefault is called);
    a target with an onEnter callback signals acceptance exactly when the
    callback returns a truthy value; in particular, when the callback returns
    a boolean, acceptance is that boolean. *)
Theorem dragenter_acceptance (host : list Call -> Call -> Outcome)
    (dt : DragTarget.t) (w : World) (e : Element) (tr : DataTransfer) :
  let evt := fresh_event e tr in
  let evt' := event (fst (dragenter host dt {| world := w; event := evt |})) in
  (DragTarget.onEnter dt = None -> defaultPrevented evt' = true) /\
  (forall f, DragTarget.onEnter dt = Some f ->
     (defaultPrevented evt' = true <->
      exists v, host (log w) (enter_call w evt f) = Returns v /\ truthy v = true) /\
     (forall b, host (log w) (enter_call w evt f) = Returns (VBool b) ->
                defaultPrevented evt' = b)).
Proof.
  simpl. unfold dragenter, setTargetProperties, preventDefault, bind, get_event,
    modify, call, ret, on_world, with_log, enter_call, fresh_event; simpl.
  split.
  - intros ->. reflexivity.
  - intros f ->. simpl.
    destruct (host _ _) as [v | v]; simpl.
    + destruct (truthy v) eqn:Ht; simpl; split.
      * split; [intros _; now exists v | reflexivity].
      * intros b Hb. inversion Hb; subst. exact (eq_sym Ht).
      * split; [discriminate |]. intros (v' & Hv' & Ht').
        inversion Hv'; subst. congruence.
      * intros b Hb. inversion Hb; subst. exact (eq_sym Ht).
    + split.
      * split; [discriminate |]. intros (v' & Hv' & _). discriminate Hv'.
      * intros b Hb. discriminate Hb.
Qed.

Lemma dragenter_acceptance_witness :
  DragTarget.onEnter copy_target = Some 21 /\
  (defaultPrevented
     (event (fst (dragenter (fun _ _ => Returns (VBool true)) copy_target
                    {| world := initial; event := fresh_event 2 empty_transfer |})))
   = true <->
   exists v, (fun _ _ => Returns (VBool true)) (log initial)
               (enter_call initial (fresh_event 2 empty_transfer) 21) = Returns v /\
             truthy v = true).
Proof.
  split; [reflexivity |].
  destruct (dragenter_acceptance (fun _ _ => Returns (VBool true)) copy_target
              initial 2 empty_transfer) as [_ H].
  destruct (H 21 eq_refl) as [Hiff _]. exact Hiff.
Defined.

(** ** Drop *)

(** C2 (the code on the gesture of the specification's scenario).  The source
    carries the text "hello" and both descriptors have an onDrop callback that
    returns.  After the drag-start handler has run for the element 1 the
    transfer object holds one type; at the drop on the element 2 the handler
    raises a TypeError when it assigns [payload[type]] on the string: no
    callback has been called and the registry is still populated. *)
Theorem drop_after_single_type_dragstart :
  let r := drag_then_drop quiet_host hello_source copy_target 1 2
             empty_transfer initial in
  DragSource.onDrop hello_source = Some 13 /\
  DragTarget.onDrop copy_target = Some 23 /\
  types (dataTransfer (event (fst r))) = ["text"] /\
  snd r = Err TypeError /\
  log (world (fst r)) = [] /\
  current (world (fst r)) = dragging hello_source 1.
Proof. vm_compute. repeat split. Qed.

(** C3 (the code at the two shapes of payload).  With the single type "text"
    of value "hello" the handler raises a TypeError and calls nothing; with
    the two types "text" and "custom" both callbacks receive the mapping of
    each type to its value. *)
Theorem drop_payload_shapes :
  let one := fresh_event 2 (source_transfer hello_source empty_transfer) in
  let two := fresh_event 2 (source_transfer two_types_source empty_transfer) in
  let r1 := drop quiet_host copy_target
              {| world := with_current (dragging hello_source 1) initial;
                 event := one |} in
  let r2 := drop quiet_host copy_target
              {| world := with_current (dragging two_types_source 1) initial;
                 event := two |} in
  types (dataTransfer one) = ["text"] /\
  getData "text" (dataTransfer one) = "hello" /\
  snd r1 = Err TypeError /\
  log (world (fst r1)) = [] /\
  types (dataTransfer two) = ["text"; "custom"] /\
  snd r2 = Ok tt /\
  map (fun c => (site c, callee c, arg c)) (log (world (fst r2))) =
    [(TargetOnDrop, 23,
      ARecord {| DropRecord.fromElement := Some 1; DropRecord.toElement := 2;
                 DropRecord.data :=
                   PObject (<["custom" := "b"]> (<["text" := "a"]> ∅)) |});
     (SourceOnDrop, 13,
      ARecord {| DropRecord.fromElement := Some 1; DropRecord.toElement := 2;
                 DropRecord.data :=
                   PObject (<["custom" := "b"]> (<["text" := "a"]> ∅)) |})].
Proof. vm_compute. repeat split. Qed.

(** * Further properties of the code *)

(** ** The encoder and camelCase *)

(** X1.  createEffectString has three outcomes: "none" for a falsy input, the
    input itself for a non-empty string, whatever the string is (effect names
    are not checked), and the error 'cannot create effect string' for
    everything else.  It never builds "all" or a combined token, and the
    default case of its switch, which would raise a TypeError, is never
    reached. *)
Theorem createEffectString_outcomes (v : value) :
  (truthy v = false /\ createEffectString v = Ok "none") \/
  (exists s, v = VStr s /\ s <> "" /\ createEffectString v = Ok s) \/
  (truthy v = true /\ ~ is_string v /\
   createEffectString v = Err InvalidConfiguration).
Proof.
  destruct (truthy v) eqn:Ht.
  - right. destruct v as [| | b | n | s | items | h]; simpl in Ht;
      try discriminate Ht.
    + right. repeat split; [intros [s Hs]; discriminate Hs |].
      unfold createEffectString. simpl. now rewrite Ht.
    + right. repeat split; [intros [s Hs]; discriminate Hs |].
      unfold createEffectString. simpl. now rewrite Ht.
    + left. exists s. split; [reflexivity |].
      assert (Hs : s <> "").
      { intros ->. discriminate Ht. }
      split; [exact Hs | now apply createEffectString_string].
    + right. repeat split. intros [s Hs]; discriminate Hs.
    + right. repeat split. intros [s Hs]; discriminate Hs.
  - left. split; [reflexivity | now apply createEffectString_falsy].
Qed.

Lemma append_nonempty (a b : string) : a <> "" -> (a ++ b)%string <> "".
Proof. destruct a; [contradiction | discriminate]. Qed.

Lemma camelCase_strings (a s : string) :
  a <> "" -> camelCase (VStr a) (VStr s) = Ok (VStr (a ++ capitalize s)%string).
Proof.
  intros Ha. unfold camelCase. simpl.
  destruct (String.eqb_spec a ""); [contradiction | reflexivity].
Qed.

Lemma camelCase_fold_from (rest : list string) (a : string) :
  a <> "" ->
  fold_left (fun acc y => match acc with
                          | Ok a => camelCase a y
                          | Err e => Err e
                          end) (map VStr rest) (Ok (VStr a)) =
  Ok (VStr (fold_left (fun acc s => (acc ++ capitalize s)%string) rest a)).
Proof.
  revert a. induction rest as [| s rest IH]; intros a Ha; [reflexivity |].
  simpl. rewrite camelCase_strings by exact Ha.
  apply IH. now apply append_nonempty.
Qed.

(** X2.  On ASCII strings camelCase is the reducer the rule of the
    specification needs: passed to reduce over an array of ASCII strings whose
    first element is not empty, it yields the first element followed by the
    others with their first letter in upper case.  With a falsy first argument
    it returns the second argument untouched; with a truthy first argument and
    a second argument that is undefined, null, a boolean, a number or an
    array it raises a TypeError. *)
Theorem camelCase_reduce (x : string) (rest : list string) :
  x <> "" ->
  forallb ascii_only (x :: rest) = true ->
  reduce camelCase (map VStr (x :: rest)) = Ok (VStr (camel_fold (x :: rest))) /\
  (forall first second, truthy first = false -> camelCase first second = Ok second) /\
  (forall first second, truthy first = true ->
     match second with VStr _ | VObj _ => False | _ => True end ->
     camelCase first second = Err TypeError).
Proof.
  intros Hx _. split; [| split].
  - simpl. now apply camelCase_fold_from.
  - intros first second Hf. unfold camelCase. now rewrite Hf.
  - intros first second Hf Hs. unfold camelCase. rewrite Hf. simpl.
    destruct second; try reflexivity; contradiction.
Qed.

Lemma camelCase_reduce_witness :
  "copy" <> "" /\ forallb ascii_only ["copy"; "link"] = true /\
  reduce camelCase (map VStr ["copy"; "link"]) = Ok (VStr "copyLink").
Proof.
  split; [discriminate |]. split; [reflexivity |].
  apply (camelCase_reduce "copy" ["link"]); [discriminate | reflexivity].
Defined.

(** ** Registration *)

Lemma World_eta (w : World) :
  w = {| current := current w; attributes := attributes w;
         listeners := listeners w; log := log w; console := console w |}.
Proof. now destruct w. Qed.

Lemma mark_lookup (es : list Element) (m : gmap (Element * string) string)
    (e : Element) (n : string) :
  fold_left (fun m e => <[(e, "draggable") := "true"]> m) es m !! (e, n) =
  if decide (e ∈ es /\ n = "draggable") then Some "true" else m !! (e, n).
Proof.
  revert m. induction es as [| e0 es IH]; intros m.
  - cbn [fold_left]. destruct (decide (e ∈ [] /\ n = "draggable")) as [[H _] |];
      [| reflexivity].
    now apply not_elem_of_nil in H.
  - cbn [fold_left]. rewrite IH.
    destruct (decide (e ∈ es /\ n = "draggable")) as [[Hin Hn] | Hno];
      destruct (decide (e ∈ e0 :: es /\ n = "draggable")) as [[Hin' Hn'] | Hno'].
    + reflexivity.
    + destruct Hno'. split; [now apply elem_of_cons; right | exact Hn].
    + subst n. apply elem_of_cons in Hin' as [-> | Hin'].
      * apply lookup_insert_eq.
      * destruct Hno. now split.
    + apply lookup_insert_ne. intros Heq. inversion Heq; subst.
      apply Hno'. split; [now apply elem_of_cons; left | reflexivity].
Qed.

Lemma makeDraggable_eq (ds : DragSource.t) (w : World) :
  makeDraggable ds w =
  ({| current := current w;
      attributes := fold_left (fun m e => <[(e, "draggable") := "true"]> m)
                              (DragSource.sources ds) (attributes w);
      listeners := listeners w; log := log w; console := console w |}, Ok tt).
Proof.
  unfold makeDraggable. revert w.
  induction (DragSource.sources ds) as [| e es IH]; intros w; simpl.
  - unfold ret. now rewrite <- World_eta.
  - unfold bind, setAttribute, modify. now rewrite IH.
Qed.

Lemma setupSourceEvents_eq (ds : DragSource.t) (w : World) :
  setupSourceEvents ds w =
  ({| current := current w; attributes := attributes w;
      listeners := listeners w ++ source_listeners ds;
      log := log w; console := console w |}, Ok tt).
Proof.
  unfold setupSourceEvents, source_listeners. revert w.
  induction (DragSource.sources ds) as [| e es IH]; intros w; simpl.
  - unfold ret. now rewrite app_nil_r, <- World_eta.
  - unfold bind, addEventListener, modify. rewrite IH. simpl.
    now rewrite <- !app_assoc.
Qed.

Lemma setupTargetEvents_eq (dt : DragTarget.t) (w : World) :
  setupTargetEvents dt w =
  ({| current := current w; attributes := attributes w;
      listeners := listeners w ++ target_listeners dt;
      log := log w; console := console w |}, Ok tt).
Proof.
  unfold setupTargetEvents, target_listeners. revert w.
  induction (DragTarget.targets dt) as [| e es IH]; intros w; simpl.
  - unfold ret. now rewrite app_nil_r, <- World_eta.
  - unfold bind, addEventListener, modify. rewrite IH. simpl.
    now rewrite <- !app_assoc.
Qed.

Lemma Dom_eta (d : DndJsSource.Dom) :
  d = {| DndJsSource.attributes := DndJsSource.attributes d;
         DndJsSource.listeners := DndJsSource.listeners d |}.
Proof. now destruct d. Qed.

Lemma dndjs_makeDraggable_eq (ds : DndJsSource.t) (d : DndJsSource.Dom) :
  DndJsSource.makeDraggable ds d =
  ({| DndJsSource.attributes :=
        fold_left (fun m e => <[(e, "draggable") := "true"]> m)
                  (DndJsSource.sources ds) (DndJsSource.attributes d);
      DndJsSource.listeners := DndJsSource.listeners d |}, Ok tt).
Proof.
  unfold DndJsSource.makeDraggable. revert d.
  induction (DndJsSource.sources ds) as [| e es IH]; intros d; simpl.
  - unfold ret. now rewrite <- Dom_eta.
  - unfold bind, DndJsSource.setAttribute, modify. now rewrite IH.
Qed.

Lemma dndjs_setupSourceEvents_eq (ds : DndJsSource.t) (d : DndJsSource.Dom) :
  DndJsSource.setupSourceEvents ds d =
  ({| DndJsSource.attributes := DndJsSource.attributes d;
      DndJsSource.listeners :=
        DndJsSource.listeners d ++ DndJsSource.descriptor_listeners ds |},
   Ok tt).
Proof.
  unfold DndJsSource.setupSourceEvents, DndJsSource.descriptor_listeners.
  revert d.
  induction (DndJsSource.sources ds) as [| e es IH]; intros d; simpl.
  - unfold ret. now rewrite app_nil_r, <- Dom_eta.
  - unfold bind, DndJsSource.addEventListener, modify. rewrite IH. simpl.
    now rewrite <- !app_assoc.
Qed.

(** createSource of src/js/dnd.js raises exactly when the encoder does. *)
Lemma dndjs_createSource_error (src : ElementArg) (options : SourceConfig.t)
    (d : DndJsSource.Dom) (e : exn) :
  snd (DndJsSource.createSource src options d) = Err e ->
  createEffectString (SourceConfig.effects options) = Err e.
Proof.
  unfold DndJsSource.createSource, DndJsSource.checkOptions, bind, ret, lift.
  destruct (createEffectString (SourceConfig.effects options)) as [tok | e'];
    simpl.
  - rewrite dndjs_makeDraggable_eq, dndjs_setupSourceEvents_eq. discriminate.
  - congruence.
Qed.

(** X3.  In src/js/dnd.js, when the effects are accepted, createSource
    returns the descriptor, gives every element of the source the attribute
    draggable="true" and leaves every other attribute as it was, and appends
    a dragstart and a dragend listener per element, in the order of the
    elements, after the listeners already there. *)
Theorem createSource_success (src : ElementArg) (options : SourceConfig.t)
    (token : string) (d : DndJsSource.Dom) :
  createEffectString (SourceConfig.effects options) = Ok token ->
  let ds := DndJsSource.descriptor src options token in
  exists d', DndJsSource.createSource src options d = (d', Ok ds) /\
    (forall e, e ∈ as_array src ->
               DndJsSource.attributes d' !! (e, "draggable") = Some "true") /\
    (forall e n, ~ (e ∈ as_array src /\ n = "draggable") ->
                 DndJsSource.attributes d' !! (e, n) =
                 DndJsSource.attributes d !! (e, n)) /\
    DndJsSource.listeners d' =
      DndJsSource.listeners d ++ DndJsSource.descriptor_listeners ds.
Proof.
  intros Htok ds.
  unfold DndJsSource.createSource, DndJsSource.checkOptions, bind, ret, lift.
  rewrite Htok.
  fold (DndJsSource.descriptor src options token). fold ds.
  rewrite dndjs_makeDraggable_eq, dndjs_setupSourceEvents_eq. simpl.
  eexists. split; [reflexivity |]. simpl. repeat split.
  - intros e He. rewrite mark_lookup.
    destruct (decide _) as [| Hno]; [reflexivity | destruct Hno; now split].
  - intros e n Hno. rewrite mark_lookup.
    destruct (decide _) as [Hyes |]; [contradiction | reflexivity].
Qed.

Lemma createSource_success_witness :
  createEffectString (SourceConfig.effects hello_config) = Ok "copy" /\
  exists d', DndJsSource.createSource (ManyElements [1; 2]) hello_config
               DndJsSource.no_dom =
             (d', Ok (DndJsSource.descriptor (ManyElements [1; 2]) hello_config "copy")) /\
    DndJsSource.listeners d' =
      DndJsSource.listeners DndJsSource.no_dom ++
      DndJsSource.descriptor_listeners
        (DndJsSource.descriptor (ManyElements [1; 2]) hello_config "copy").
Proof.
  split; [reflexivity |].
  destruct (createSource_success (ManyElements [1; 2]) hello_config "copy"
              DndJsSource.no_dom eq_refl) as (d' & H1 & _ & _ & H4).
  exists d'. split; assumption.
Defined.

(** X4.  Called with an options object, createTarget returns the descriptor
    built from it and appends, per element and in this order, a dragenter, a
    dragleave, a dragover and a drop listener, after the listeners already
    there; it sets no attribute and touches neither the registry nor the
    log. *)
Theorem createTarget_success (elmts : ElementArg) (options : TargetConfig.t)
    (w : World) :
  let dt := target_descriptor elmts options in
  exists w', createTarget elmts options w = (w', Ok dt) /\
    attributes w' = attributes w /\
    listeners w' = listeners w ++ target_listeners dt /\
    length (listeners w') = length (listeners w) + 4 * length (as_array elmts) /\
    current w' = current w /\ log w' = log w /\ console w' = console w.
Proof.
  intros dt. unfold createTarget, bind, ret.
  fold (target_descriptor elmts options). fold dt.
  rewrite setupTargetEvents_eq. eexists. split; [reflexivity |]. simpl.
  repeat split. rewrite length_app. f_equal.
  unfold target_listeners, dt. simpl.
  induction (as_array elmts) as [| e es IH]; simpl; [reflexivity | lia].
Qed.

(** ** What drag-start writes into the transfer object *)

Lemma store_get_set (t f d : string) (st : list (string * string)) :
  store_get t (store_set f d st) = if String.eqb f t then d else store_get t st.
Proof.
  induction st as [| [f0 d0] st IH]; simpl.
  - reflexivity.
  - destruct (String.eqb_spec f0 f) as [-> | Hne]; simpl.
    + now destruct (String.eqb f t).
    + rewrite IH. destruct (String.eqb_spec f0 t) as [-> | Hne'];
        [| reflexivity].
      destruct (String.eqb_spec f t) as [-> | _]; [contradiction | reflexivity].
Qed.

Lemma item_transfer_setData (d : DataItem) (tr : DataTransfer) :
  item_transfer d tr = setData (item_type d) (item_value d) tr.
Proof. now destruct d. Qed.

Lemma items_fields (items : list DataItem) (tr : DataTransfer) :
  let tr' := fold_left (fun tr d => item_transfer d tr) items tr in
  effectAllowed tr' = effectAllowed tr /\ dropEffect tr' = dropEffect tr /\
  dragImage tr' = dragImage tr.
Proof.
  revert tr. induction items as [| d items IH]; intros tr; simpl; [easy |].
  destruct (IH (item_transfer d tr)) as (H1 & H2 & H3).
  rewrite H1, H2, H3. now destruct d.
Qed.

Lemma items_getData (t : string) (items : list DataItem) (tr : DataTransfer) :
  getData t (fold_left (fun tr d => item_transfer d tr) items tr) =
  match last_value t items with
  | Some v => v
  | None => getData t tr
  end.
Proof.
  induction items as [| d items IH] using rev_ind; [reflexivity |].
  unfold last_value. rewrite !fold_left_app. simpl.
  rewrite item_transfer_setData. unfold getData at 1, setData. simpl.
  rewrite store_get_set.
  destruct (String.eqb (item_type d) t); [reflexivity | exact IH].
Qed.

Lemma dragstart_event (host : list Call -> Call -> Outcome) (ds : DragSource.t)
    (w : World) (evt : Event) :
  event (fst (dragstart host ds {| world := w; event := evt |})) =
  {| target := target evt;
     dataTransfer := source_transfer ds (dataTransfer evt);
     defaultPrevented := defaultPrevented evt |}.
Proof.
  unfold dragstart, bind, get_event, set_source, set_element, modify. simpl.
  rewrite setSourceProperties_eq. simpl.
  destruct (DragSource.onStart ds) as [f |]; simpl; [| reflexivity].
  unfold call. simpl. now destruct (host _ _).
Qed.

(** X5.  The drag-start handler writes the effect token of the source into
    effectAllowed, never writes dropEffect, and sets the drag image exactly
    when the source has a view, with the offsets x and y of the view, 0 when
    an offset is missing; it does not prevent the default action and leaves
    the target of the event alone. *)
Theorem dragstart_transfer_fields (host : list Call -> Call -> Outcome)
    (ds : DragSource.t) (w : World) (evt : Event) :
  let evt' := event (fst (dragstart host ds {| world := w; event := evt |})) in
  effectAllowed (dataTransfer evt') = DragSource.effects ds /\
  dropEffect (dataTransfer evt') = dropEffect (dataTransfer evt) /\
  dragImage (dataTransfer evt') =
    match DragSource.view ds with
    | Some v => Some (view_element v,
                      match x v with Some n => n | None => 0%Z end,
                      match y v with Some n => n | None => 0%Z end)
    | None => dragImage (dataTransfer evt)
    end /\
  defaultPrevented evt' = defaultPrevented evt /\
  target evt' = target evt.
Proof.
  simpl. rewrite dragstart_event. simpl. unfold source_transfer.
  destruct (items_fields (DragSource.data ds)
              (match DragSource.view ds with
               | Some v => setDragImage (view_element v) (or_zero (x v))
                             (or_zero (y v))
                             (set_effectAllowed (DragSource.effects ds)
                                (dataTransfer evt))
               | None => set_effectAllowed (DragSource.effects ds)
                           (dataTransfer evt)
               end)) as (H1 & H2 & H3).
  simpl in H1, H2, H3. rewrite H1, H2, H3.
  destruct (DragSource.view ds) as [v |]; simpl; repeat split.
  assert (Hz : forall o, or_zero o = match o with Some n => n | None => 0%Z end).
  { intros [n |]; simpl; [| reflexivity].
    destruct (Z.eqb_spec n 0); congruence. }
  now rewrite !Hz.
Qed.

(** X6.  After drag-start, the transfer object gives for each type the value
    of the last element of the source's data written under that type, a
    string counting as the type "text" (so a string and a pair of type "text"
    overwrite one another); a type the source does not write keeps the value
    it had. *)
Theorem dragstart_data (host : list Call -> Call -> Outcome)
    (ds : DragSource.t) (w : World) (evt : Event) (t : string) :
  let evt' := event (fst (dragstart host ds {| world := w; event := evt |})) in
  getData t (dataTransfer evt') =
  match last_value t (DragSource.data ds) with
  | Some v => v
  | None => getData t (dataTransfer evt)
  end.
Proof.
  simpl. rewrite dragstart_event. simpl. unfold source_transfer.
  rewrite items_getData.
  destruct (last_value t (DragSource.data ds)); [reflexivity |].
  now destruct (DragSource.view ds).
Qed.

Lemma same_type_store (t : string) (items : list DataItem) (tr : DataTransfer)
    (v0 : string) :
  Forall (fun d => item_type d = t) items ->
  store tr = [(t, v0)] ->
  exists v, store (fold_left (fun tr d => item_transfer d tr) items tr) = [(t, v)].
Proof.
  intros H. revert tr v0. induction H as [| d items Hd _ IH]; intros tr v0 Hs.
  - now exists v0.
  - simpl. apply (IH _ (item_value d)).
    rewrite item_transfer_setData, Hd. unfold setData. simpl. rewrite Hs. simpl.
    now rewrite String.eqb_refl.
Qed.

(** X7.  A source whose data elements all have the same type, other than
    [__proto__] (in particular a source with one data element), cannot be
    dropped on a target that has an onDrop callback: starting from a transfer
    object without data, the drop handler finds exactly one type and raises a
    TypeError; no onDrop callback is called and the registry still holds the
    source. *)
Theorem single_type_source_cannot_drop (host : list Call -> Call -> Outcome)
    (ds : DragSource.t) (dt : DragTarget.t) (d : DataItem)
    (rest : list DataItem) (f : Callback) (from to : Element)
    (tr : DataTransfer) (w : World) :
  DragSource.data ds = d :: rest ->
  Forall (fun d' => item_type d' = item_type d) rest ->
  item_type d <> "__proto__" ->
  store tr = [] ->
  DragTarget.onDrop dt = Some f ->
  let r := drag_then_drop host ds dt from to tr w in
  snd r = Err TypeError /\
  current (world (fst r)) = dragging ds from /\
  count_site TargetOnDrop (new_calls w (world (fst r))) = 0 /\
  count_site SourceOnDrop (new_calls w (world (fst r))) = 0.
Proof.
  intros Hdata Hsame Hproto Hempty Hf. unfold drag_then_drop.
  rewrite dragstart_event, dragstart_world. simpl.
  assert (Htypes : types (source_transfer ds tr) = [item_type d]).
  { unfold source_transfer. rewrite Hdata. simpl.
    destruct (same_type_store (item_type d) rest
                (item_transfer d
                   (match DragSource.view ds with
                    | Some v => setDragImage (view_element v) (or_zero (x v))
                                  (or_zero (y v))
                                  (set_effectAllowed (DragSource.effects ds) tr)
                    | None => set_effectAllowed (DragSource.effects ds) tr
                    end)) (item_value d) Hsame) as [v Hv].
    - rewrite item_transfer_setData. unfold setData. simpl.
      destruct (DragSource.view ds); simpl; now rewrite Hempty.
    - unfold types. now rewrite Hv. }
  match goal with
  | |- context [drop host dt ?st] =>
      destruct (drop_single_type host dt (world st) (event st) f (item_type d)
                  Hf Htypes Hproto) as (H1 & H2 & H3)
  end.
  simpl in H1, H2, H3. split; [exact H1 |]. split; [exact H2 |].
  assert (Hn : new_calls w
      (world (fst (drop host dt
         {| world := with_log
                       (log w ++ match DragSource.onStart ds with
                                 | Some g => [start_call ds (fresh_event from tr) g]
                                 | None => []
                                 end)
                       (with_current (dragging ds from) w);
            event := fresh_event to (source_transfer ds tr) |})))
      = match DragSource.onStart ds with
        | Some g => [start_call ds (fresh_event from tr) g]
        | None => []
        end).
  { apply new_calls_app. exact H3. }
  rewrite Hn. now destruct (DragSource.onStart ds).
Qed.

Lemma single_type_source_cannot_drop_witness :
  DragSource.data hello_source = [DString "hello"] /\
  item_type (DString "hello") <> "__proto__" /\
  snd (drag_then_drop raising_host hello_source copy_target 1 2
         empty_transfer initial) = Err TypeError.
Proof.
  split; [reflexivity |]. split; [discriminate |].
  apply (single_type_source_cannot_drop raising_host hello_source copy_target
           (DString "hello") [] 23 1 2 empty_transfer initial);
    [reflexivity | constructor | discriminate | reflexivity | reflexivity].
Defined.

Section DropCases.

Variable host : list Call -> Call -> Outcome.

(** The drop handler when it runs to its end: the source's callback is
    optional. *)
Lemma drop_completes (dt : DragTarget.t) (ds : DragSource.t)
    (w : World) (evt : Event) (f : Callback) :
  DragTarget.onDrop dt = Some f ->
  source (current w) = Some ds ->
  length (types (dataTransfer evt)) <> 1 ->
  returns_normally host f ->
  (forall g, DragSource.onDrop ds = Some g -> returns_normally host g) ->
  exists m,
    fill_payload (dataTransfer evt) (PObject ∅) (types (dataTransfer evt)) =
      Ok (PObject m) /\
    let r := drop host dt {| world := w; event := evt |} in
    snd r = Ok tt /\ current (world (fst r)) = idle /\
    log (world (fst r)) =
      log w ++ drop_call TargetOnDrop w evt (PObject m) f ::
               match DragSource.onDrop ds with
               | Some g => [drop_call SourceOnDrop w evt (PObject m) g]
               | None => []
               end.
Proof.
  intros Hf Hs Hlen Rf Rg.
  destruct (fill_payload_object (dataTransfer evt) (types (dataTransfer evt)) ∅)
    as (m & Hm & _).
  exists m. split; [exact Hm |].
  unfold drop, bind, console_log, get_event, get_current, modify, lift, call,
    set_source, set_element, throw, ret, on_world, with_log, with_current.
  simpl. rewrite Hf.
  destruct (Nat.eqb_spec (length (types (dataTransfer evt))) 1) as [E | _];
    [contradiction |].
  rewrite Hm. simpl.
  match goal with
  | |- context [host ?l ?c] => destruct (Rf l c eq_refl) as [v ->]
  end.
  simpl. rewrite Hs.
  destruct (DragSource.onDrop ds) as [g |]; simpl.
  - match goal with
    | |- context [host ?l ?c] => destruct (Rg g eq_refl l c eq_refl) as [v' ->]
    end.
    simpl. rewrite <- app_assoc. repeat split.
  - repeat split.
Qed.

End DropCases.

(** X8.  A whole gesture that ends in a drop, when the onDrop callbacks
    return normally: drag-start on a source, any hover events, a drop with a
    number of types other than one on a target that has an onDrop callback,
    then the drag-end of the source; the target's onDrop returns normally and
    so does the source's onDrop if the source has one.  Then the target's
    onDrop is called once, the source's onDrop once if it has one, both with
    the dragged element as fromElement and the element dropped on as
    toElement; onCancel is not called, although the drag-end handler runs; the
    registry is idle at the end. *)
Theorem drop_gesture (host : list Call -> Call -> Outcome)
    (ds : DragSource.t) (dt : DragTarget.t) (f : Callback) (w : World)
    (evt : Event) (hovers : list (Handler * Event)) (evt_drop evt_end : Event) :
  DragTarget.onDrop dt = Some f ->
  returns_normally host f ->
  (forall g, DragSource.onDrop ds = Some g -> returns_normally host g) ->
  Forall (fun d => is_hover (fst d) = true) hovers ->
  length (types (dataTransfer evt_drop)) <> 1 ->
  let w' := run host w ((SourceDragStart ds, evt) :: hovers ++
                        [(TargetDrop dt, evt_drop); (SourceDragEnd ds, evt_end)]) in
  current w' = idle /\
  count_site TargetOnDrop (new_calls w w') = 1 /\
  count_site SourceOnDrop (new_calls w w') =
    match DragSource.onDrop ds with Some _ => 1 | None => 0 end /\
  count_site SourceOnCancel (new_calls w w') = 0 /\
  Forall (fun c => site c = TargetOnDrop \/ site c = SourceOnDrop ->
            exists r, arg c = ARecord r /\
                      DropRecord.fromElement r = Some (target evt) /\
                      DropRecord.toElement r = target evt_drop)
         (new_calls w w').
Proof.
  intros Hf Rf Rg Hh Hlen. simpl. unfold run. rewrite fold_left_app. simpl.
  fold (run host (deliver host w (SourceDragStart ds, evt)) hovers).
  set (w1 := deliver host w (SourceDragStart ds, evt)).
  assert (Hw1 : w1 = with_log (log w ++ match DragSource.onStart ds with
                                        | Some g => [start_call ds evt g]
                                        | None => []
                                        end)
                              (with_current (dragging ds (target evt)) w)).
  { unfold w1, deliver. simpl. apply dragstart_world. }
  destruct (run_hover host hovers w1 Hh) as (Hc2 & calls2 & Hl2 & Hs2).
  set (w2 := run host w1 hovers) in *.
  assert (Hcur2 : current w2 = dragging ds (target evt)).
  { rewrite Hc2, Hw1. reflexivity. }
  assert (Hsrc : source (current w2) = Some ds) by now rewrite Hcur2.
  destruct (drop_completes host dt ds w2 evt_drop f Hf Hsrc Hlen Rf Rg)
    as (m & _ & _ & Hc3 & Hl3).
  set (w3 := deliver host w2 (TargetDrop dt, evt_drop)).
  change (world (fst (drop host dt {| world := w2; event := evt_drop |})))
    with w3 in Hc3, Hl3.
  assert (Hw4 : deliver host w3 (SourceDragEnd ds, evt_end) = w3).
  { unfold deliver. simpl. rewrite dragend_idle; [reflexivity |].
    now rewrite Hc3. }
  rewrite Hw4. split; [exact Hc3 |].
  set (calls1 := match DragSource.onStart ds with
                 | Some g => [start_call ds evt g]
                 | None => []
                 end) in *.
  set (calls3 := drop_call TargetOnDrop w2 evt_drop (PObject m) f ::
                 match DragSource.onDrop ds with
                 | Some g => [drop_call SourceOnDrop w2 evt_drop (PObject m) g]
                 | None => []
                 end) in *.
  assert (Hn : new_calls w w3 = (calls1 ++ calls2) ++ calls3).
  { apply new_calls_app. rewrite Hl3, Hl2, Hw1. simpl.
    now rewrite <- !app_assoc. }
  rewrite Hn.
  assert (Hs1 : Forall (fun c => site c = SourceOnStart) calls1).
  { unfold calls1. destruct (DragSource.onStart ds); repeat constructor. }
  assert (Hbefore : forall s, s <> SourceOnStart -> s <> TargetOnEnter ->
                              s <> TargetOnLeave ->
                              count_site s (calls1 ++ calls2) = 0).
  { intros s H1 H2 H3. apply count_site_zero, Forall_app. split.
    - eapply Forall_impl; [exact Hs1 |]. intros c ->. congruence.
    - eapply Forall_impl; [exact Hs2 |]. intros c [-> | ->]; congruence. }
  rewrite !(count_site_app _ (calls1 ++ calls2) calls3), !Hbefore by discriminate.
  unfold calls3. repeat split.
  - now destruct (DragSource.onDrop ds).
  - now destruct (DragSource.onDrop ds).
  - now destruct (DragSource.onDrop ds).
  - apply Forall_app. split; [apply Forall_app; split |].
    + eapply Forall_impl; [exact Hs1 |]. intros c -> [H | H]; discriminate H.
    + eapply Forall_impl; [exact Hs2 |].
      intros c [-> | ->] [H | H]; discriminate H.
    + assert (He : element (current w2) = Some (target evt)) by now rewrite Hcur2.
      destruct (DragSource.onDrop ds); repeat constructor; intros _;
        eexists; (split; [reflexivity |]); simpl; now split.
Qed.

Lemma drop_gesture_witness :
  let w' := run quiet_host initial
              [(SourceDragStart two_types_source, fresh_event 1 empty_transfer);
               (TargetDragOver copy_target, fresh_event 2 empty_transfer);
               (TargetDrop copy_target,
                fresh_event 2 (source_transfer two_types_source empty_transfer));
               (SourceDragEnd two_types_source, fresh_event 1 empty_transfer)] in
  length (types (source_transfer two_types_source empty_transfer)) <> 1 /\
  current w' = idle /\
  count_site TargetOnDrop (new_calls initial w') = 1 /\
  count_site SourceOnDrop (new_calls initial w') = 1 /\
  count_site SourceOnCancel (new_calls initial w') = 0.
Proof.
  assert (Hlen : length (types (dataTransfer
            (fresh_event 2 (source_transfer two_types_source empty_transfer)))) <> 1)
    by (vm_compute; discriminate).
  split; [exact Hlen |].
  destruct (drop_gesture quiet_host two_types_source copy_target 23 initial
              (fresh_event 1 empty_transfer)
              [(TargetDragOver copy_target, fresh_event 2 empty_transfer)]
              (fresh_event 2 (source_transfer two_types_source empty_transfer))
              (fresh_event 1 empty_transfer))
    as (H1 & H2 & H3 & H4 & _).
  - reflexivity.
  - intros l c _. now exists VUndefined.
  - intros g _ l c _. now exists VUndefined.
  - repeat constructor.
  - exact Hlen.
  - repeat split; assumption.
Defined.

(** X9.  The drag-end handler does not look at which source is in the
    registry: while any gesture is active, the drag-end of any source, the
    dragged one or another, calls that source's onCancel, if it has one, with
    the target of the event, and then clears the registry; the registry is
    left as it was only when that call raises. *)
Theorem dragend_cancels_any_gesture (host : list Call -> Call -> Outcome)
    (ds active : DragSource.t) (e : Element) (w : World) (evt : Event) :
  current w = dragging active e ->
  let w' := deliver host w (SourceDragEnd ds, evt) in
  match DragSource.onCancel ds with
  | None => new_calls w w' = [] /\ current w' = idle
  | Some f =>
      new_calls w w' = [cancel_call w evt f] /\
      current w' = match host (log w) (cancel_call w evt f) with
                   | Returns _ => idle
                   | Throws _ => dragging active e
                   end
  end.
Proof.
  intros Hcur. simpl.
  assert (Hsome : is_Some (source (current w))).
  { rewrite Hcur. now eexists. }
  pose proof (dragend_outcome host ds w evt Hsome) as H. simpl in H.
  unfold deliver. simpl.
  destruct (DragSource.onCancel ds) as [f |]; destruct H as [Hl Hc].
  - split; [now apply new_calls_app |]. now rewrite Hc, Hcur.
  - split; [| exact Hc]. apply new_calls_app. now rewrite Hl, app_nil_r.
Qed.

Lemma dragend_cancels_any_gesture_witness :
  current (with_current (dragging two_types_source 1) initial) =
    dragging two_types_source 1 /\
  current (deliver quiet_host (with_current (dragging two_types_source 1) initial)
             (SourceDragEnd hello_source, fresh_event 7 empty_transfer)) = idle.
Proof.
  split; [reflexivity |].
  apply (dragend_cancels_any_gesture quiet_host hello_source two_types_source 1
           (with_current (dragging two_types_source 1) initial)
           (fresh_event 7 empty_transfer)).
  reflexivity.
Defined.

(** X10.  When its onCancel callback raises, the drag-end handler stops
    there: the exception goes to the platform and the registry stays
    populated. *)
Theorem dragend_cancel_raises (host : list Call -> Call -> Outcome)
    (ds : DragSource.t) (f : Callback) (w : World) (evt : Event) (v : value) :
  is_Some (source (current w)) ->
  DragSource.onCancel ds = Some f ->
  host (log w) (cancel_call w evt f) = Throws v ->
  let r := dragend host ds {| world := w; event := evt |} in
  snd r = Err (Thrown v) /\
  current (world (fst r)) = current w /\
  log (world (fst r)) = log w ++ [cancel_call w evt f].
Proof.
  intros [s Hs] Hf Hv.
  unfold dragend, bind, get_event, get_current, call. simpl.
  rewrite Hs, Hf. simpl. fold (cancel_call w evt f). rewrite Hv. now simpl.
Qed.

Lemma dragend_cancel_raises_witness :
  is_Some (source (current (with_current (dragging hello_source 1) initial))) /\
  snd (dragend raising_host hello_source
         {| world := with_current (dragging hello_source 1) initial;
            event := fresh_event 1 empty_transfer |}) = Err (Thrown (VStr "boom")).
Proof.
  assert (H : is_Some (source (current
                (with_current (dragging hello_source 1) initial))))
    by (eexists; reflexivity).
  split; [exact H |].
  apply (dragend_cancel_raises raising_host hello_source 12
           (with_current (dragging hello_source 1) initial)
           (fresh_event 1 empty_transfer) (VStr "boom") H);
    reflexivity.
Defined.

(** X11.  A drop while the registry is idle (nothing was dragged from a
    source of this module) on a target with an onDrop callback: the callback
    is called with the registry's empty element as fromElement, then the
    handler raises a TypeError when it reads [current.source.onDrop]; the
    registry stays idle. *)
Theorem drop_without_drag (host : list Call -> Call -> Outcome)
    (dt : DragTarget.t) (f : Callback) (w : World) (evt : Event) :
  source (current w) = None ->
  DragTarget.onDrop dt = Some f ->
  returns_normally host f ->
  length (types (dataTransfer evt)) <> 1 ->
  let r := drop host dt {| world := w; event := evt |} in
  snd r = Err TypeError /\
  current (world (fst r)) = current w /\
  exists m, log (world (fst r)) =
            log w ++ [drop_call TargetOnDrop w evt (PObject m) f] /\
            DropRecord.fromElement (drop_record w evt (PObject m)) =
              element (current w).
Proof.
  intros Hs Hf Rf Hlen.
  destruct (fill_payload_object (dataTransfer evt) (types (dataTransfer evt)) ∅)
    as (m & Hm & _).
  unfold drop, bind, console_log, get_event, get_current, modify, lift, call,
    set_source, set_element, throw, ret, on_world, with_log, with_current.
  simpl. rewrite Hf.
  destruct (Nat.eqb_spec (length (types (dataTransfer evt))) 1) as [E | _];
    [contradiction |].
  rewrite Hm. simpl.
  match goal with
  | |- context [host ?l ?c] => destruct (Rf l c eq_refl) as [v ->]
  end.
  simpl. rewrite Hs. simpl. repeat split. now exists m.
Qed.

Lemma drop_without_drag_witness :
  source (current initial) = None /\
  snd (drop quiet_host copy_target
         {| world := initial; event := fresh_event 2 empty_transfer |})
    = Err TypeError.
Proof.
  split; [reflexivity |].
  apply (drop_without_drag quiet_host copy_target 23 initial
           (fresh_event 2 empty_transfer)).
  - reflexivity.
  - reflexivity.
  - intros l c _. now exists VUndefined.
  - vm_compute. discriminate.
Defined.



(** X13.  For a source that has an onCancel callback which returns normally,
    a drop on a target without an onDrop callback is seen as a cancellation:
    after drag-start, any hover events, such a drop and the drag-end of the
    source, onCancel has been called once and no onDrop callback has been
    called, even when the source has one; the registry is idle at the end. *)
Theorem unhandled_drop_is_cancel (host : list Call -> Call -> Outcome)
    (ds : DragSource.t) (dt : DragTarget.t) (f : Callback) (w : World)
    (evt : Event) (hovers : list (Handler * Event)) (evt_drop evt_end : Event) :
  DragTarget.onDrop dt = None ->
  DragSource.onCancel ds = Some f ->
  returns_normally host f ->
  Forall (fun d => is_hover (fst d) = true) hovers ->
  let w' := run host w ((SourceDragStart ds, evt) :: hovers ++
                        [(TargetDrop dt, evt_drop); (SourceDragEnd ds, evt_end)]) in
  current w' = idle /\
  count_site SourceOnCancel (new_calls w w') = 1 /\
  count_site SourceOnDrop (new_calls w w') = 0 /\
  count_site TargetOnDrop (new_calls w w') = 0.
Proof.
  intros Hnone Hf Hret Hh. simpl. unfold run. rewrite fold_left_app. simpl.
  fold (run host (deliver host w (SourceDragStart ds, evt)) hovers).
  set (w1 := deliver host w (SourceDragStart ds, evt)).
  assert (Hw1 : w1 = with_log (log w ++ match DragSource.onStart ds with
                                        | Some g => [start_call ds evt g]
                                        | None => []
                                        end)
                              (with_current (dragging ds (target evt)) w)).
  { unfold w1, deliver. simpl. apply dragstart_world. }
  destruct (run_hover host hovers w1 Hh) as (Hc2 & calls2 & Hl2 & Hs2).
  set (w2 := run host w1 hovers) in *.
  destruct (drop_no_callback host dt w2 evt_drop Hnone) as (_ & Hc3 & Hl3).
  set (w3 := deliver host w2 (TargetDrop dt, evt_drop)).
  change (world (fst (drop host dt {| world := w2; event := evt_drop |})))
    with w3 in Hc3, Hl3.
  assert (Hsome : is_Some (source (current w3))).
  { rewrite Hc3, Hc2, Hw1. simpl. now eexists. }
  assert (Hw4 : deliver host w3 (SourceDragEnd ds, evt_end) =
                with_current idle
                  (with_log (log w3 ++ [cancel_call w3 evt_end f]) w3)).
  { unfold deliver. simpl. rewrite dragend_world; [now rewrite Hf | exact Hsome |].
    intros g Hg. rewrite Hf in Hg. now inversion Hg; subst. }
  rewrite Hw4. simpl.
  set (calls1 := match DragSource.onStart ds with
                 | Some g => [start_call ds evt g]
                 | None => []
                 end) in *.
  assert (Hn : new_calls w (with_current idle
                 (with_log (log w3 ++ [cancel_call w3 evt_end f]) w3))
               = (calls1 ++ calls2) ++ [cancel_call w3 evt_end f]).
  { apply new_calls_app. simpl. rewrite Hl3, Hl2, Hw1. simpl.
    now rewrite <- !app_assoc. }
  rewrite Hn.
  assert (Hs1 : Forall (fun c => site c = SourceOnStart) calls1).
  { unfold calls1. destruct (DragSource.onStart ds); repeat constructor. }
  assert (Hbefore : forall s, s <> SourceOnStart -> s <> TargetOnEnter ->
                              s <> TargetOnLeave ->
                              count_site s (calls1 ++ calls2) = 0).
  { intros s H1 H2 H3. apply count_site_zero, Forall_app. split.
    - eapply Forall_impl; [exact Hs1 |]. intros c ->. congruence.
    - eapply Forall_impl; [exact Hs2 |]. intros c [-> | ->]; congruence. }
  split; [reflexivity |].
  rewrite !(count_site_app _ (calls1 ++ calls2) [_]), !Hbefore by discriminate.
  repeat split.
Qed.

Lemma unhandled_drop_is_cancel_witness :
  let w' := run quiet_host initial
              [(SourceDragStart hello_source, fresh_event 1 empty_transfer);
               (TargetDrop silent_target, fresh_event 5 empty_transfer);
               (SourceDragEnd hello_source, fresh_event 1 empty_transfer)] in
  DragTarget.onDrop silent_target = None /\
  count_site SourceOnCancel (new_calls initial w') = 1 /\
  count_site SourceOnDrop (new_calls initial w') = 0.
Proof.
  split; [reflexivity |].
  destruct (unhandled_drop_is_cancel quiet_host hello_source silent_target 12
              initial (fresh_event 1 empty_transfer) []
              (fresh_event 5 empty_transfer) (fresh_event 1 empty_transfer))
    as (_ & H2 & H3 & _).
  - reflexivity.
  - reflexivity.
  - intros l c _. now exists VUndefined.
  - constructor.
  - split; assumption.
Defined.

(** ** What deliveries leave alone *)

Lemma deliver_frame (host : list Call -> Call -> Outcome) (w : World)
    (d : Handler * Event) :
  attributes (deliver host w d) = attributes w /\
  listeners (deliver host w d) = listeners w /\
  console (deliver host w d) = console w ++ console_output (fst d).
Proof.
  destruct d as [h evt]. destruct h as [ds | ds | dt | dt | dt | dt].
  - unfold deliver. simpl. rewrite dragstart_world. simpl.
    now rewrite app_nil_r.
  - unfold deliver, run_handler, dragend, bind, get_event, get_current, modify,
      call, set_source, set_element, ret, on_world, with_log, with_current; simpl.
    repeat (case_match; simpl in * ); simplify_eq; simpl;
      rewrite ?app_nil_r; repeat split.
  - unfold deliver, run_handler, dragenter, setTargetProperties, preventDefault,
      bind, get_event, modify, call, ret, on_world, with_log; simpl.
    repeat (case_match; simpl in * ); simplify_eq; simpl;
      rewrite ?app_nil_r; repeat split.
  - unfold deliver, run_handler, dragleave, bind, get_event, modify, call, ret,
      on_world, with_log; simpl.
    repeat (case_match; simpl in * ); simplify_eq; simpl;
      rewrite ?app_nil_r; repeat split.
  - unfold deliver, run_handler, dragover, preventDefault, modify; simpl.
    now rewrite app_nil_r.
  - unfold deliver, run_handler, drop, bind, console_log, get_event, get_current,
      modify, lift, call, set_source, set_element, throw, ret, on_world,
      with_log, with_current; simpl.
    repeat (case_match; simpl in * ); simplify_eq; simpl; repeat split.
Qed.

(** X14.  Event handlers never change what createSource and createTarget set
    up: after any sequence of deliveries the attributes and the listeners are
    the ones before it.  The console receives one line 'targetDrop' per
    delivery to a drop listener, whether or not the target has an onDrop
    callback and whether or not the handler raises, and nothing else. *)
Theorem run_frame (host : list Call -> Call -> Outcome)
    (events : list (Handler * Event)) (w : World) :
  attributes (run host w events) = attributes w /\
  listeners (run host w events) = listeners w /\
  console (run host w events) =
    console w ++ flat_map (fun d => console_output (fst d)) events.
Proof.
  revert w. induction events as [| d events IH]; intros w; simpl.
  - now rewrite app_nil_r.
  - destruct (IH (deliver host w d)) as (H1 & H2 & H3).
    destruct (deliver_frame host w d) as (F1 & F2 & F3).
    fold (run host (deliver host w d) events).
    rewrite H1, H2, H3, F1, F2, F3. now rewrite <- app_assoc.
Qed.

(** X15.  The events a target receives while the pointer hovers (enter,
    leave, over), in any number and order and for any targets, leave the
    registry as it is and call no callback of a source and no onDrop. *)
Theorem hover_events_are_neutral (host : list Call -> Call -> Outcome)
    (hovers : list (Handler * Event)) (w : World) :
  Forall (fun d => is_hover (fst d) = true) hovers ->
  let w' := run host w hovers in
  current w' = current w /\
  count_site SourceOnStart (new_calls w w') = 0 /\
  count_site SourceOnCancel (new_calls w w') = 0 /\
  count_site SourceOnDrop (new_calls w w') = 0 /\
  count_site TargetOnDrop (new_calls w w') = 0.
Proof.
  intros Hh. destruct (run_hover host hovers w Hh) as (Hc & calls & Hl & Hs).
  simpl. split; [exact Hc |].
  rewrite (new_calls_app _ _ _ Hl).
  repeat split; apply count_site_zero;
    (eapply Forall_impl; [exact Hs |]); intros c [-> | ->]; discriminate.
Qed.

Lemma hover_events_are_neutral_witness :
  is_hover (TargetDragEnter copy_target) = true /\
  current (run raising_host (with_current (dragging hello_source 1) initial)
             [(TargetDragEnter copy_target, fresh_event 2 empty_transfer);
              (TargetDragOver copy_target, fresh_event 2 empty_transfer)])
  = dragging hello_source 1.
Proof.
  split; [reflexivity |].
  apply (hover_events_are_neutral raising_host
           [(TargetDragEnter copy_target, fresh_event 2 empty_transfer);
            (TargetDragOver copy_target, fresh_event 2 empty_transfer)]
           (with_current (dragging hello_source 1) initial)).
  repeat constructor.
Defined.

(** ** The source side of src/js/dnd.js *)

(** X16.  In src/js/dnd.js the drag-start handler sets effectAllowed and the
    drag image only: the data of the source is not written into the transfer
    object, whose data store is left as it was, and nothing records which
    source is dragged. *)
Theorem dndjs_dragstart_writes_no_data (host : list Call -> Call -> Outcome)
    (ds : DndJsSource.t) (w : World) (evt : Event) :
  let st' := fst (DndJsSource.dragstart host ds {| world := w; event := evt |}) in
  store (dataTransfer (event st')) = store (dataTransfer evt) /\
  (forall t, getData t (dataTransfer (event st')) = getData t (dataTransfer evt)) /\
  effectAllowed (dataTransfer (event st')) = DndJsSource.effects ds /\
  current (world st') = current w.
Proof.
  unfold DndJsSource.dragstart, DndJsSource.setSourceProperties, bind, get_event,
    modify, call, ret, on_world, on_transfer, with_log, getData; simpl.
  destruct (DndJsSource.view ds); simpl;
    destruct (DndJsSource.onStart ds); simpl;
    try destruct (host _ _); simpl; repeat split.
Qed.

(** X17.  In src/js/dnd.js the drag-end handler calls onCancel, with the
    target of the event, at every drag-end: it does not depend on the
    registry, so it also fires after a drop; in this module the handler of a
    source with the same callback makes no call when the registry is idle. *)
Theorem dndjs_dragend_always_cancels (host : list Call -> Call -> Outcome)
    (js : DndJsSource.t) (ds : DragSource.t) (f : Callback)
    (w : World) (evt : Event) :
  DndJsSource.onCancel js = Some f ->
  DragSource.onCancel ds = Some f ->
  log (world (fst (DndJsSource.dragend host js {| world := w; event := evt |})))
    = log w ++ [cancel_call w evt f] /\
  (source (current w) = None ->
   log (world (fst (dragend host ds {| world := w; event := evt |}))) = log w).
Proof.
  intros Hjs Hds. split.
  - unfold DndJsSource.dragend, bind, get_event, call. simpl. rewrite Hjs. simpl.
    fold (cancel_call w evt f). now destruct (host _ _).
  - intros Hidle. now rewrite dragend_idle.
Qed.

Lemma dndjs_dragend_always_cancels_witness :
  DragSource.onCancel hello_source = Some 12 /\
  log (world (fst (DndJsSource.dragend quiet_host
         {| DndJsSource.sources := [1]; DndJsSource.effects := "copy";
            DndJsSource.data := DataOne (DString "hello");
            DndJsSource.view := None; DndJsSource.onStart := None;
            DndJsSource.onCancel := Some 12; DndJsSource.onDrop := None |}
         {| world := initial; event := fresh_event 1 empty_transfer |})))
  = log initial ++ [cancel_call initial (fresh_event 1 empty_transfer) 12].
Proof.
  split; [reflexivity |].
  apply (dndjs_dragend_always_cancels quiet_host
           {| DndJsSource.sources := [1]; DndJsSource.effects := "copy";
              DndJsSource.data := DataOne (DString "hello");
              DndJsSource.view := None; DndJsSource.onStart := None;
              DndJsSource.onCancel := Some 12; DndJsSource.onDrop := None |}
           hello_source 12 initial (fresh_event 1 empty_transfer));
    reflexivity.
Defined.

(** ** Tokens *)

(** X18.  A token the encoder returns is a non-empty string, and the encoder
    maps it to itself: encoding the effects of a descriptor again changes
    nothing. *)
Theorem createEffectString_idempotent (v : value) (token : string) :
  createEffectString v = Ok token ->
  token <> "" /\ createEffectString (VStr token) = Ok token.
Proof.
  intros H.
  assert (Hne : token <> "").
  { unfold createEffectString in H. destruct (truthy v) eqn:Ht; simpl in H.
    - destruct v; simpl in H, Ht; try discriminate H.
      inversion H; subst. intros ->. discriminate Ht.
    - inversion H. discriminate. }
  split; [exact Hne | now apply createEffectString_string].
Qed.

Lemma createEffectString_idempotent_witness :
  createEffectString VNull = Ok "none" /\
  createEffectString (VStr "none") = Ok "none".
Proof.
  split; [reflexivity |].
  apply (createEffectString_idempotent VNull "none"). reflexivity.
Defined.

(** ** The failure modes of the system *)

(** No event handler raises an Error of its own making: what a handler raises
    comes from the language or from a callback. *)
Lemma run_handler_no_Error (host : list Call -> Call -> Outcome) (h : Handler)
    (st : HState) (msg : string) :
  snd (run_handler host h st) <> Err (Error msg).
Proof.
  destruct h as [ds | ds | dt | dt | dt | dt]; simpl.
  - unfold dragstart, bind, get_event, set_source, set_element, modify. simpl.
    rewrite setSourceProperties_eq. simpl.
    destruct (DragSource.onStart ds); simpl; [| discriminate].
    unfold call. destruct (host _ _); simpl; discriminate.
  - unfold dragend, bind, get_event, get_current, modify, call, set_source,
      set_element, ret; simpl.
    repeat (case_match; simpl in * ); simplify_eq; discriminate.
  - unfold dragenter, setTargetProperties, preventDefault, bind, get_event,
      modify, call, ret; simpl.
    repeat (case_match; simpl in * ); simplify_eq; discriminate.
  - unfold dragleave, bind, get_event, modify, call, ret; simpl.
    repeat (case_match; simpl in * ); simplify_eq; discriminate.
  - unfold dragover, preventDefault, modify; simpl. discriminate.
  - unfold drop, bind, console_log, get_event, get_current, modify, lift, call,
      set_source, set_element, throw, ret; simpl.
    destruct (DragTarget.onDrop dt); simpl; [| discriminate].
    destruct (fill_payload _ _ _) as [p | e] eqn:Hfill; simpl.
    + repeat (case_match; simpl in * ); simplify_eq; discriminate.
    + intros Hbad. inversion Hbad; subst. clear Hbad.
      assert (Hgen : forall ts p0,
                fill_payload (dataTransfer (event st)) p0 ts <> Err (Error msg)).
      { induction ts as [| t ts IH]; intros p0; simpl; [discriminate |].
        unfold payload_set. destruct (String.eqb t "__proto__"); [apply IH |].
        destruct p0; [discriminate | apply IH]. }
      now apply Hgen in Hfill.
Qed.

(** C6 (amended).  For an input that is not a collection, the encoder raises
    the error 'cannot create effect string' exactly when the input is truthy
    and not a string; it raises no other error; every falsy input (absent,
    null, false, 0, the empty string) yields "none"; a non-empty string is
    returned unchanged; the number 42 is rejected.  This is the only
    validated failure mode of the system: no event handler, and neither
    createTarget nor createSource of the module with the registry, raises an
    Error, and createSource of src/js/dnd.js raises only what the encoder
    raises. *)
Theorem createEffectString_fails_iff (v : value) :
  (forall items, v <> VArr items) ->
  (fails v <-> truthy v = true /\ ~ is_string v) /\
  (forall e, createEffectString v = Err e -> e = InvalidConfiguration) /\
  (truthy v = false -> createEffectString v = Ok "none") /\
  (forall s, v = VStr s -> s <> "" -> createEffectString v = Ok s) /\
  fails (VNum 42) /\
  (forall host h st msg, snd (run_handler host h st) <> Err (Error msg)) /\
  (forall elmts options w msg,
     snd (createTarget elmts options w) <> Err (Error msg)) /\
  (forall src options w msg,
     snd (createSource src options w) <> Err (Error msg)) /\
  (forall src options d e,
     snd (DndJsSource.createSource src options d) = Err e ->
     createEffectString (SourceConfig.effects options) = Err e).
Proof.
  intros Hna.
  split; [| split; [| split; [| split; [| split; [| split; [| split; [| split]]]]]]].
  - unfold fails, is_string.
    destruct v as [| | b | n | s | items | h]; unfold createEffectString; simpl;
      try destruct b; try destruct (n =? 0)%Z; try destruct (String.eqb s "");
      simpl; split; try (intros H; discriminate H);
      try (intros [H _]; discriminate H);
      try (intros _; split; [reflexivity | intros [s' H']; discriminate H']);
      try reflexivity.
    all: intros [_ H]; destruct H; now exists s.
  - intros e He. unfold createEffectString in He.
    destruct (truthy v); simpl in He; [| discriminate He].
    destruct v; simpl in He; try discriminate He; congruence.
  - apply createEffectString_falsy.
  - intros s -> Hs. now apply createEffectString_string.
  - reflexivity.
  - apply run_handler_no_Error.
  - intros elmts options w msg. unfold createTarget, bind, ret.
    rewrite setupTargetEvents_eq. discriminate.
  - intros src options w msg. discriminate.
  - intros src options d e. apply dndjs_createSource_error.
Qed.

Lemma createEffectString_fails_iff_witness :
  (forall items, VNum 42 <> VArr items) /\
  (fails (VNum 42) <-> truthy (VNum 42) = true /\ ~ is_string (VNum 42)).
Proof.
  assert (H : forall items, VNum 42 <> VArr items) by discriminate.
  split; [exact H |].
  apply (createEffectString_fails_iff (VNum 42) H).
Defined.
